(** * rugplaylite: the proxy and graph endpoints of [server/server.js]

    A shallow embedding of the request handlers of the Express server and of
    the platform functions they call (string conversion, [parseInt],
    [URLSearchParams], the [URL] parser), followed by the properties of the
    handlers.

    Strings are byte strings: a JavaScript string is represented by its UTF-8
    encoding, which is the form in which [URLSearchParams] and [URL]
    percent-encode it.  Console output is not modelled. *)

From Stdlib Require Import ZArith String Ascii List Bool Lia DecimalString.
From Stdlib Require Import DecimalPos DecimalFacts.
From stdpp Require Import base gmap strings list.

Set Warnings "-register-all".
Local Open Scope string_scope.
Local Open Scope Z_scope.

(** ** Bytes and byte strings *)

Module Bytes.

Definition code (c : ascii) : N := N_of_ascii c.

Definition between (lo hi : N) (c : ascii) : bool :=
  ((lo <=? code c) && (code c <=? hi))%N.

Definition is_digit (c : ascii) : bool := between 48 57 c.
Definition is_upper (c : ascii) : bool := between 65 90 c.
Definition is_lower (c : ascii) : bool := between 97 122 c.
Definition is_alnum (c : ascii) : bool := is_digit c || is_upper c || is_lower c.

Definition one_of (set : string) (c : ascii) : bool :=
  existsb (Ascii.eqb c) (list_ascii_of_string set).

(** The double quote, byte 34. *)
Definition dquote : ascii := ascii_of_N 34.
Definition is_dquote (c : ascii) : bool := Ascii.eqb c dquote.

(** The string made of the given byte values. *)
Definition bytes (l : list N) : string :=
  string_of_list_ascii (List.map ascii_of_N l).

Fixpoint map_bytes (f : ascii -> string) (s : string) : string :=
  match s with
  | EmptyString => ""
  | String c rest => f c +:+ map_bytes f rest
  end.

Fixpoint filter_bytes (keep : ascii -> bool) (s : string) : string :=
  match s with
  | EmptyString => ""
  | String c rest =>
      if keep c then String c (filter_bytes keep rest) else filter_bytes keep rest
  end.

Fixpoint all_bytes (p : ascii -> bool) (s : string) : bool :=
  match s with
  | EmptyString => true
  | String c rest => p c && all_bytes p rest
  end.

(** [strip_prefix p s] is what follows [p] in [s], when [s] starts with [p]. *)
Fixpoint strip_prefix (p s : string) : option string :=
  match p, s with
  | EmptyString, _ => Some s
  | String a p', String b s' => if Ascii.eqb a b then strip_prefix p' s' else None
  | String _ _, EmptyString => None
  end.

(** The pieces of [s] between the occurrences of the separator; as
    [String.prototype.split] does, it always yields at least one piece. *)
Fixpoint split_on (sep : ascii -> bool) (s : string) : list string :=
  match s with
  | EmptyString => [""]
  | String c rest =>
      if sep c then "" :: split_on sep rest
      else match split_on sep rest with
           | [] => [String c ""]
           | w :: ws => String c w :: ws
           end
  end.

(** [s] cut at the first byte satisfying [sep]: what comes before it and,
    when there is such a byte, what comes after it. *)
Fixpoint cut_at (sep : ascii -> bool) (s : string) : string * option string :=
  match s with
  | EmptyString => ("", None)
  | String c rest =>
      if sep c then ("", Some rest)
      else let '(before, after) := cut_at sep rest in (String c before, after)
  end.

Fixpoint rev_string_onto (s acc : string) : string :=
  match s with
  | EmptyString => acc
  | String c rest => rev_string_onto rest (String c acc)
  end.

Definition rev_string (s : string) : string := rev_string_onto s "".

Fixpoint drop_while (p : ascii -> bool) (s : string) : string :=
  match s with
  | EmptyString => ""
  | String c rest => if p c then drop_while p rest else s
  end.

Definition hex_digit (n : N) : ascii :=
  match String.get (N.to_nat n) "0123456789ABCDEF" with
  | Some c => c
  | None => "0"%char
  end.

Definition hex_value (c : ascii) : option N :=
  if is_digit c then Some (code c - 48)%N
  else if between 65 70 c then Some (code c - 55)%N
  else if between 97 102 c then Some (code c - 87)%N
  else None.

(** [%XX], two upper-case hexadecimal digits. *)
Definition percent_byte (c : ascii) : string :=
  String "%" (String (hex_digit (code c / 16)) (String (hex_digit (code c mod 16)) "")).

(** Percent-decoding of a byte sequence: a [%] followed by two hexadecimal
    digits is the byte they denote, every other byte stands for itself. *)
Fixpoint percent_decode (s : string) : string :=
  match s with
  | EmptyString => ""
  | String c tl =>
      if Ascii.eqb c "%" then
        match tl with
        | String h (String l rest) =>
            match hex_value h, hex_value l with
            | Some a, Some b => String (ascii_of_N (16 * a + b)) (percent_decode rest)
            | _, _ => String c (percent_decode tl)
            end
        | _ => String c (percent_decode tl)
        end
      else String c (percent_decode tl)
  end.

(** ASCII lower-casing. *)
Definition to_lower (c : ascii) : ascii :=
  if is_upper c then ascii_of_N (code c + 32) else c.

Definition lower_string (s : string) : string :=
  map_bytes (fun c => String (to_lower c) "") s.

End Bytes.

(** ** [Buffer.prototype.toString], the UTF-8 decoder *)

Module Utf8.
Import Bytes.

(** What a byte is at the start of a character: a character by itself, the
    lead of a sequence with [more] continuation bytes after the next one,
    the next one being between [lower] and [upper], or no start at all. *)
Inductive Start : Type :=
  | Single
  | Lead (more : nat) (lower upper : N)
  | Bad.

Definition start (c : ascii) : Start :=
  if between 0 127 c then Single
  else if between 194 223 c then Lead 0 128 191
  else if between 224 239 c then
    Lead 1 (if between 224 224 c then 160 else 128)
           (if between 237 237 c then 159 else 191)
  else if between 240 244 c then
    Lead 2 (if between 240 240 c then 144 else 128)
           (if between 244 244 c then 143 else 191)
  else Bad.

(** A sequence under way: the bytes seen, how many are needed after the
    next one, and the bounds of the next one. *)
Record Pending : Type := {
  seen : string;
  more : nat;
  lower : N;
  upper : N
}.

(** U+FFFD, which stands for every ill-formed sequence. *)
Definition replacement : string := bytes [239; 191; 189]%N.

(** The decoder, from a state: a well-formed sequence is kept, an
    ill-formed one is replaced, the byte that breaks a sequence is read
    again as a start, and a sequence cut by the end of the input is
    replaced. *)
Fixpoint decode (pending : option Pending) (input : string) : string :=
  match input with
  | EmptyString =>
      match pending with
      | Some _ => replacement
      | None => ""
      end
  | String c rest =>
      let fresh :=
        match start c with
        | Single => String c (decode None rest)
        | Lead n lo hi =>
            decode (Some {| seen := String c ""; more := n; lower := lo; upper := hi |}) rest
        | Bad => replacement +:+ decode None rest
        end in
      match pending with
      | None => fresh
      | Some p =>
          if between (lower p) (upper p) c then
            match more p with
            | O => seen p +:+ String c (decode None rest)
            | S n =>
                decode (Some {| seen := seen p +:+ String c ""; more := n;
                                lower := 128; upper := 191 |}) rest
            end
          else replacement +:+ fresh
      end
  end.

(** The state in which the decoder is left by an input. *)
Fixpoint end_state (pending : option Pending) (input : string) : option Pending :=
  match input with
  | EmptyString => pending
  | String c rest =>
      let fresh :=
        match start c with
        | Single => end_state None rest
        | Lead n lo hi =>
            end_state (Some {| seen := String c ""; more := n; lower := lo; upper := hi |}) rest
        | Bad => end_state None rest
        end in
      match pending with
      | None => fresh
      | Some p =>
          if between (lower p) (upper p) c then
            match more p with
            | O => end_state None rest
            | S n =>
                end_state (Some {| seen := seen p +:+ String c ""; more := n;
                                   lower := 128; upper := 191 |}) rest
            end
          else fresh
      end
  end.

(** [data.toString()] for a Buffer [data], with the text in UTF-8. *)
Definition Buffer_toString (data : string) : string := decode None data.

(** The Buffer does not stop inside a character. *)
Definition ends_at_boundary (data : string) : bool :=
  match end_state None data with
  | None => true
  | Some _ => false
  end.

End Utf8.

(** ** JavaScript values met by the handlers *)

Module JS.
Import Bytes.

(** A Number that [parseInt] can return: [NaN], or an integer.  [Int z]
    stands for the double nearest to [z]; the two coincide when
    [|z| <= 2^53].  Both zeros are [Int 0]. *)
Inductive Number : Type :=
  | NaN
  | Int (z : Z).

(** The values of the handlers: [undefined], numbers, and what the query
    parser puts in [req.query]: strings, arrays (repeated keys) and nested
    objects (bracketed keys). *)
Inductive value : Type :=
  | Undefined
  | Num (n : Number)
  | Str (s : string)
  | Arr (items : list value)
  | Obj (props : list (string * value)).

(** [Array.prototype.join] once the elements are strings. *)
Fixpoint join (sep : string) (l : list string) : string :=
  match l with
  | [] => ""
  | [x] => x
  | x :: rest => x +:+ sep +:+ join sep rest
  end.

(** [ToBoolean]. *)
Definition ToBoolean (v : value) : bool :=
  match v with
  | Undefined => false
  | Num NaN => false
  | Num (Int z) => negb (z =? 0)
  | Str s => negb (String.eqb s "")
  | Arr _ | Obj _ => true
  end.

(** [a || b]. *)
Definition or (a b : value) : value := if ToBoolean a then a else b.

(** The white space that [parseInt] skips (WhiteSpace and LineTerminator of
    ECMAScript), each code point in UTF-8. *)
Definition white_space : list string :=
  List.map bytes
    [ [9]; [10]; [11]; [12]; [13]; [32]; [194; 160]; [225; 154; 128];
      [226; 128; 128]; [226; 128; 129]; [226; 128; 130]; [226; 128; 131];
      [226; 128; 132]; [226; 128; 133]; [226; 128; 134]; [226; 128; 135];
      [226; 128; 136]; [226; 128; 137]; [226; 128; 138]; [226; 128; 168];
      [226; 128; 169]; [226; 128; 175]; [226; 129; 159]; [227; 128; 128];
      [239; 187; 191] ]%N.

Fixpoint strip_one (prefixes : list string) (s : string) : option string :=
  match prefixes with
  | [] => None
  | p :: ps =>
      match strip_prefix p s with
      | Some rest => Some rest
      | None => strip_one ps s
      end
  end.

Fixpoint skip_white (fuel : nat) (s : string) : string :=
  match fuel with
  | O => s
  | S fuel' =>
      match strip_one white_space s with
      | Some rest => skip_white fuel' rest
      | None => s
      end
  end.

(** The value of [c] as a digit of the given radix (10 or 16 here). *)
Definition digit_value (radix : Z) (c : ascii) : option Z :=
  let v :=
    if is_digit c then Some (Z.of_N (code c) - 48)
    else if is_lower c then Some (Z.of_N (code c) - 87)
    else if is_upper c then Some (Z.of_N (code c) - 55)
    else None in
  match v with
  | Some d => if d <? radix then Some d else None
  | None => None
  end.

(** The integer written by the longest prefix of [s] made of digits of the
    radix, continuing from [acc]; [None] when no digit has been read. *)
Fixpoint digits_prefix (radix : Z) (s : string) (acc : option Z) : option Z :=
  match s with
  | EmptyString => acc
  | String c rest =>
      match digit_value radix c with
      | Some d => digits_prefix radix rest (Some (radix * default 0 acc + d))
      | None => acc
      end
  end.

(** [parseInt(s)] with no radix argument. *)
Definition parseInt_string (input : string) : Number :=
  let s := skip_white (String.length input) input in
  let '(sign, s) :=
    match s with
    | String "-" rest => (-1, rest)
    | String "+" rest => (1, rest)
    | _ => (1, s)
    end in
  let '(radix, s) :=
    match s with
    | String "0" (String x rest) =>
        if one_of "xX" x then (16, rest) else (10, s)
    | _ => (10, s)
    end in
  match digits_prefix radix s None with
  | Some m => Int (sign * m)
  | None => NaN
  end.

End JS.

(** ** JSON documents *)

(** A JSON value.  A number is kept as the literal that denotes it: the
    handlers only pass parsed documents along. *)
Inductive json : Type :=
  | JNull
  | JBool (b : bool)
  | JNumber (literal : string)
  | JString (s : string)
  | JArray (items : list json)
  | JObject (members : list (string * json)).

(** ** The platform *)

(** What the handlers take from the runtime and this development does not
    define: the JSON codec, and the printing of the doubles beyond the
    integers that a double represents exactly. *)
Class Platform : Type := {
  JSON_parse : string -> option json;
  JSON_stringify : json -> string;
  Number_toString_large : Z -> string
}.

Module Conv.
Import Bytes JS.

Section WithPlatform.
Context `{!Platform}.

(** [Number::toString]: an integer that a double holds exactly prints as
    its decimal digits. *)
Definition Number_toString (n : Number) : string :=
  match n with
  | NaN => "NaN"
  | Int z =>
      if Z.abs z <=? 2 ^ 53 then NilZero.string_of_int (Z.to_int z)
      else Number_toString_large z
  end.

(** [ToString], which is also how a template literal and
    [URLSearchParams] convert a value: [undefined] is ["undefined"], an
    array is its elements joined by commas ([undefined] elements print as
    nothing), a plain object is ["[object Object]"]. *)
Fixpoint ToString (v : value) : string :=
  match v with
  | Undefined => "undefined"
  | Num n => Number_toString n
  | Str s => s
  | Arr items =>
      join "," (List.map (fun x => match x with
                                   | Undefined => ""
                                   | _ => ToString x
                                   end) items)
  | Obj _ => "[object Object]"
  end.

(** [parseInt(v)]: the argument is converted to a string first. *)
Definition parseInt (v : value) : Number := parseInt_string (ToString v).

End WithPlatform.
End Conv.

(** ** [application/x-www-form-urlencoded], the format of [URLSearchParams] *)

Module URLEncoded.
Import Bytes JS.

(** The bytes that the serializer leaves as they are. *)
Definition safe (c : ascii) : bool := is_alnum c || one_of "*-._" c.

Definition encode_byte (c : ascii) : string :=
  if Ascii.eqb c " " then "+"
  else if safe c then String c ""
  else percent_byte c.

Definition encode (s : string) : string := map_bytes encode_byte s.

(** [URLSearchParams.prototype.toString]. *)
Definition serialize (l : list (string * string)) : string :=
  join "&" (List.map (fun '(name, v) => encode name +:+ "=" +:+ encode v) l).

Definition plus_to_space (c : ascii) : string :=
  if Ascii.eqb c "+" then " " else String c "".

Definition decode (s : string) : string :=
  percent_decode (map_bytes plus_to_space s).

(** The parser of the format: the name-value pairs of a query string. *)
Definition parse (s : string) : list (string * string) :=
  flat_map
    (fun piece =>
       if String.eqb piece "" then []
       else let '(name, v) := cut_at (Ascii.eqb "=") piece in
            [(decode name, decode (default "" v))])
    (split_on (Ascii.eqb "&") s).

End URLEncoded.

(** ** The [URL] class, for URLs in a special scheme *)

Module WhatwgURL.
Import Bytes JS.

(** A parsed URL.  [url_origin] is the scheme and the host, [https://host]. *)
Record URL : Type := {
  url_origin : string;
  url_path : list string;
  url_query : option string;
  url_fragment : option string
}.

Definition c0_control_set (c : ascii) : bool :=
  ((code c <=? 31) || (126 <? code c))%N.
Definition fragment_set (c : ascii) : bool :=
  c0_control_set c || is_dquote c || one_of " <>`" c.
Definition query_set (c : ascii) : bool :=
  c0_control_set c || is_dquote c || one_of " #<>" c.
Definition special_query_set (c : ascii) : bool :=
  query_set c || one_of "'" c.
Definition path_set (c : ascii) : bool :=
  query_set c || one_of "?^`{}" c.

Definition utf8_percent_encode (set : ascii -> bool) (s : string) : string :=
  map_bytes (fun c => if set c then percent_byte c else String c "") s.

Definition is_tab_or_newline (c : ascii) : bool := one_of (bytes [9; 10; 13]%N) c.
Definition is_c0_or_space (c : ascii) : bool := (code c <=? 32)%N.
Definition is_slash (c : ascii) : bool := one_of "/\" c.

Definition is_single_dot (buffer : string) : bool :=
  existsb (String.eqb (lower_string buffer)) ["."; "%2e"].
Definition is_double_dot (buffer : string) : bool :=
  existsb (String.eqb (lower_string buffer)) [".."; ".%2e"; "%2e."; "%2e%2e"].

(** The path state, one segment at a time.  All segments but the last are
    closed by a slash. *)
Fixpoint path_state (segments : list string) (path : list string) : list string :=
  match segments with
  | [] => path
  | seg :: rest =>
      let buffer := utf8_percent_encode path_set seg in
      let last := match rest with [] => true | _ => false end in
      let path' :=
        if is_double_dot buffer then
          let shortened := removelast path in
          if last then (shortened ++ [""])%list else shortened
        else if is_single_dot buffer then
          if last then (path ++ [""])%list else path
        else (path ++ [buffer])%list in
      path_state rest path'
  end.

(** [new URL(origin + rest)], for [origin] a literal [https://host] and
    [rest] starting at the slash that ends the host: trailing controls and
    spaces are dropped, tabs and newlines removed, the first [#] starts the
    fragment, the first [?] before it starts the query, and the path is
    cut into segments at slashes and backslashes. *)
Definition new_URL (origin rest : string) : URL :=
  let input := rev_string (drop_while is_c0_or_space (rev_string rest)) in
  let input := filter_bytes (fun c => negb (is_tab_or_newline c)) input in
  let '(before, frag) := cut_at (Ascii.eqb "#") input in
  let '(pathname, search) := cut_at (Ascii.eqb "?") before in
  let pathname :=
    match pathname with
    | String c tl => if is_slash c then tl else pathname
    | EmptyString => pathname
    end in
  {| url_origin := origin;
     url_path := path_state (split_on is_slash pathname) [];
     url_query := utf8_percent_encode special_query_set <$> search;
     url_fragment := utf8_percent_encode fragment_set <$> frag |}.

(** The [search] setter. *)
Definition set_search (url : URL) (v : string) : URL :=
  if String.eqb v "" then
    {| url_origin := url_origin url; url_path := url_path url;
       url_query := None; url_fragment := url_fragment url |}
  else
    let input := match v with String "?" tl => tl | _ => v end in
    let input := filter_bytes (fun c => negb (is_tab_or_newline c)) input in
    {| url_origin := url_origin url; url_path := url_path url;
       url_query := Some (utf8_percent_encode special_query_set input);
       url_fragment := url_fragment url |}.

(** The URL serializer, which gives [href]. *)
Definition href (url : URL) : string :=
  url_origin url
  +:+ String.concat "" (List.map (fun seg => "/" +:+ seg) (url_path url))
  +:+ match url_query url with Some q => "?" +:+ q | None => "" end
  +:+ match url_fragment url with Some f => "#" +:+ f | None => "" end.

End WhatwgURL.

(** ** The server *)

Module Server.
Import Bytes JS Conv WhatwgURL.

(** An inbound request: [req.query] and [req.body]. *)
Record Request : Type := {
  query : gmap string value;
  body : json
}.

(** [req.query.name], [undefined] when the key is absent. *)
Definition param (req : Request) (name : string) : value :=
  default Undefined (query req !! name).

(** The upstream response: its status, and its body as [response.text()]
    yields it ([None] when reading the body fails). *)
Record Response : Type := {
  status : Z;
  text : option string
}.

(** [response.ok]. *)
Definition ok (response : Response) : bool :=
  (200 <=? status response) && (status response <? 300).

(** How the promise returned by [fetch] settles. *)
Inductive Settled : Type :=
  | Rejected
  | Fulfilled (response : Response).

(** What a handler does with [res]: [res.status(code).json(payload)]
    ([res.json] alone sends status 200), possibly after one call to
    [fetch] whose outcome it awaits.  [Respond] records the status and the
    value handed to Express; how Express writes them out is not modelled. *)
Inductive Handling : Type :=
  | Respond (code : Z) (payload : json)
  | Fetch (url method : string) (headers : gmap string string)
          (next : Settled -> Handling).

(** The module-level configuration, set once when the server starts. *)
Record Config : Type := {
  runMode : string;
  API_KEY : value
}.

(** Lines 11 to 20: [runMode] is [process.env.RUN_MODE || 'local'], and
    [API_KEY] is read from the environment in local mode only. *)
Definition startup (env : gmap string string) : Config :=
  let runMode :=
    match env !! "RUN_MODE" with
    | Some s => if String.eqb s "" then "local" else s
    | None => "local"
    end in
  {| runMode := runMode;
     API_KEY :=
       if decide (runMode = "local")
       then from_option Str Undefined (env !! "RUGPLAY_API_KEY")
       else Undefined |}.

(** The events of the child process that [/api/graph] listens to.  A
    [data] event carries a Buffer, the bytes of one chunk.  The exit code is
    [None] when the process was ended by a signal. *)
Inductive ChildEvent : Type :=
  | stdout_data (data : string)
  | stderr_data (data : string)
  | close (code : option Z).

(** What [/api/graph] starts: the command, its arguments and what is
    written to its standard input before it is closed. *)
Record Spawned : Type := {
  command : string;
  args : list string;
  stdin : string
}.

Section Handlers.
Context `{!Platform}.
Variable cfg : Config.

Definition getAuthHeaders (req : Request) : gmap string string :=
  let authToken :=
    if decide (runMode cfg = "local") then API_KEY cfg else param req "apikey" in
  let headers : gmap string string :=
    <["Content-Type" := "application/json"]>
      (<["Authorization" := "Bearer " +:+ ToString authToken]> ∅) in
  if decide (runMode cfg ≠ "local") then
    let headers := <["User-Agent" := "Mozilla/5.0 (Windows NT 10.0; Win64; x64) AppleWebKit/537.36 (KHTML, like Gecko) Chrome/58.0.3029.110 Safari/537.3"]> headers in
    let headers := <["Accept" := "application/json, text/plain, */*"]> headers in
    let headers := <["Accept-Language" := "en-US,en;q=0.9"]> headers in
    let headers := <["Accept-Encoding" := "gzip, deflate, br"]> headers in
    let headers := <["Connection" := "keep-alive"]> headers in
    let headers := <["Pragma" := "no-cache"]> headers in
    let headers := <["Cache-Control" := "no-cache"]> headers in
    headers
  else headers.

Definition internal_server_error : Handling :=
  Respond 500 (JObject [("error", JString "Internal server error.")]).

(** The generic fetch handler.  The [catch] clause covers a rejected
    [fetch], a body that cannot be read and a body that is not JSON. *)
Definition handleApiRequest (url : string) (req : Request) : Handling :=
  Fetch url "GET" (getAuthHeaders req) (fun settled =>
    match settled with
    | Rejected => internal_server_error
    | Fulfilled response =>
        if negb (ok response) then
          match text response with
          | Some errorText =>
              Respond (status response)
                (JObject [("error", JString "Failed to fetch data from external API.");
                          ("details", JString errorText)])
          | None => internal_server_error
          end
        else
          match text response ≫= JSON_parse with
          | Some data => Respond 200 data
          | None => internal_server_error
          end
    end).

(** [new URLSearchParams(params)] for an object [params], given as its
    properties in order: every value is converted to a string. *)
Definition URLSearchParams (params : list (string * value)) : list (string * string) :=
  List.map (fun '(name, v) => (name, ToString v)) params.

Definition get_api_top_coins (req : Request) : Handling :=
  handleApiRequest "https://rugplay.com/api/v1/top" req.

Definition market_params (req : Request) : list (string * value) :=
  [ ("search", param req "search");
    ("sortBy", param req "sortBy");
    ("sortOrder", param req "sortOrder");
    ("priceFilter", param req "priceFilter");
    ("changeFilter", param req "changeFilter");
    ("page", or (Num (parseInt (param req "page"))) (Num (Int 1)));
    ("limit", or (Num (parseInt (param req "limit"))) (Num (Int 12))) ].

Definition get_api_market_data (req : Request) : Handling :=
  let params := market_params req in
  let url := new_URL "https://rugplay.com" "/api/v1/market" in
  let url := set_search url (URLEncoded.serialize (URLSearchParams params)) in
  handleApiRequest (href url) req.

Definition coin_info_params (req : Request) : list (string * value) :=
  [ ("timeframe", or (param req "timeframe") (Str "1m")) ].

Definition get_api_coin_info (req : Request) : Handling :=
  let params := coin_info_params req in
  let url :=
    new_URL "https://rugplay.com" ("/api/v1/coin/" +:+ ToString (param req "symbol")) in
  let url := set_search url (URLEncoded.serialize (URLSearchParams params)) in
  handleApiRequest (href url) req.

Definition coin_holders_params (req : Request) : list (string * value) :=
  [ ("limit", or (param req "limit") (Num (Int 50))) ].

Definition get_api_coin_holders (req : Request) : Handling :=
  let params := coin_holders_params req in
  let url :=
    new_URL "https://rugplay.com" ("/api/v1/holders/" +:+ ToString (param req "symbol")) in
  let url := set_search url (URLEncoded.serialize (URLSearchParams params)) in
  handleApiRequest (href url) req.

(** [/api/graph]: the child process and what is written to it. *)
Definition graph_spawn (pythonScriptPath : string) (req : Request) : Spawned :=
  {| command := "python";
     args := [pythonScriptPath];
     stdin := JSON_stringify (body req) |}.

(** The [close] listener. *)
Definition on_close (pythonOutput : string) (code : option Z) : Handling :=
  if decide (code = Some 0) then
    match JSON_parse pythonOutput with
    | Some graphData =>
        Respond 200 (JObject [("success", JBool true); ("graphData", graphData)])
    | None =>
        Respond 500 (JObject [("success", JBool false);
                              ("error", JString "Failed to process graph data")])
    end
  else
    Respond 500 (JObject [("success", JBool false);
                          ("error", JString "Graph generation failed")]).

(** The listeners of [/api/graph] run over the events of the child, with
    [pythonOutput] the output accumulated so far: each chunk is decoded by
    itself and appended.  No response is sent before the child closes. *)
Fixpoint graph_listen (pythonOutput : string) (events : list ChildEvent)
  : option Handling :=
  match events with
  | [] => None
  | stdout_data data :: later =>
      graph_listen (pythonOutput +:+ Utf8.Buffer_toString data) later
  | stderr_data _ :: later => graph_listen pythonOutput later
  | close code :: _ => Some (on_close pythonOutput code)
  end.

Definition post_api_graph (events : list ChildEvent) : option Handling :=
  graph_listen "" events.

End Handlers.

(** The four proxy routes. *)
Inductive Route : Type := top_coins | market_data | coin_info | coin_holders.

Definition proxy `{!Platform} (cfg : Config) (route : Route) : Request -> Handling :=
  match route with
  | top_coins => get_api_top_coins cfg
  | market_data => get_api_market_data cfg
  | coin_info => get_api_coin_info cfg
  | coin_holders => get_api_coin_holders cfg
  end.

(** *** Observations on a handler *)

(** The method and the URL of the outbound call, when the handler makes one. *)
Definition issued (h : Handling) : option (string * string) :=
  match h with
  | Fetch url method _ _ => Some (method, url)
  | Respond _ _ => None
  end.

(** The headers of the outbound call. *)
Definition outbound_headers (h : Handling) : option (gmap string string) :=
  match h with
  | Fetch _ _ headers _ => Some headers
  | Respond _ _ => None
  end.

(** What the handler does once the outbound call has settled. *)
Definition settle (h : Handling) (s : Settled) : Handling :=
  match h with
  | Fetch _ _ _ next => next s
  | Respond _ _ => h
  end.

(** The name-value pairs that a target URL carries in its query string,
    between the first [?] and the fragment. *)
Definition search_params_of (target : string) : list (string * string) :=
  let '(before, _) := cut_at (Ascii.eqb "#") target in
  match cut_at (Ascii.eqb "?") before with
  | (_, Some search) => URLEncoded.parse search
  | (_, None) => []
  end.

(** The text accumulated from the chunks that a child wrote to its
    standard output: each chunk decoded by itself, in order. *)
Fixpoint stdout_of (events : list ChildEvent) : string :=
  match events with
  | [] => ""
  | stdout_data data :: later => Utf8.Buffer_toString data +:+ stdout_of later
  | _ :: later => stdout_of later
  end.

Definition is_close (e : ChildEvent) : bool :=
  match e with close _ => true | _ => false end.

(** A symbol that the URL parser leaves as it is when it stands as the
    last path segment: no byte that the parser encodes, strips or takes
    for a delimiter, and not a dot segment.  Letters and digits qualify. *)
Definition segment_byte (c : ascii) : bool :=
  negb (path_set c || is_slash c || is_c0_or_space c).

Definition valid_symbol (symbol : string) : bool :=
  all_bytes segment_byte symbol
  && negb (is_single_dot symbol) && negb (is_double_dot symbol).

(** The bytes that [URLSearchParams] may write in a query string. *)
Definition query_byte (c : ascii) : bool :=
  URLEncoded.safe c || one_of "+%=&" c.

End Server.

(** ** A platform to run the model on examples

    The properties below hold for every [Platform].  This instance reads
    and prints JSON documents whose strings have no [\u] escapes, and
    prints a large integer by its digits; it serves to evaluate the
    handlers on concrete requests. *)

Module Sample.
Import Bytes.

Definition is_ws (c : ascii) : bool := one_of (bytes [32; 9; 10; 13]%N) c.
Definition skip_ws (s : string) : string := drop_while is_ws s.

(** The longest prefix of bytes satisfying [p], and the rest. *)
Fixpoint span (p : ascii -> bool) (s : string) : string * string :=
  match s with
  | EmptyString => ("", "")
  | String c rest =>
      if p c then let '(a, b) := span p rest in (String c a, b) else ("", s)
  end.

Definition nonempty (s : string) : bool := negb (String.eqb s "").

(** The grammar of a JSON number. *)
Definition number_literal (lit : string) : bool :=
  let s := match lit with String "-" tl => tl | _ => lit end in
  let '(int, s) := span is_digit s in
  let int_ok :=
    match int with
    | EmptyString => false
    | String "0" tl => String.eqb tl ""
    | _ => true
    end in
  let '(frac_ok, s) :=
    match s with
    | String "." tl => let '(f, s') := span is_digit tl in (nonempty f, s')
    | _ => (true, s)
    end in
  let exp_ok :=
    match s with
    | EmptyString => true
    | String e tl =>
        one_of "eE" e &&
        let digits := match tl with
                      | String sign tl' => if one_of "+-" sign then tl' else tl
                      | EmptyString => tl
                      end in
        nonempty digits && all_bytes is_digit digits
    end in
  int_ok && frac_ok && exp_ok.

Definition escape (c : ascii) : option ascii :=
  if is_dquote c || one_of "\/" c then Some c
  else if Ascii.eqb c "b" then Some (ascii_of_N 8)
  else if Ascii.eqb c "f" then Some (ascii_of_N 12)
  else if Ascii.eqb c "n" then Some (ascii_of_N 10)
  else if Ascii.eqb c "r" then Some (ascii_of_N 13)
  else if Ascii.eqb c "t" then Some (ascii_of_N 9)
  else None.

(** A string, read from after its opening quote to its closing quote. *)
Fixpoint read_string (s : string) : option (string * string) :=
  match s with
  | EmptyString => None
  | String c tl =>
      if is_dquote c then Some ("", tl)
      else if Ascii.eqb c "\" then
        match tl with
        | String e tl' =>
            match escape e, read_string tl' with
            | Some ch, Some (str, rest) => Some (String ch str, rest)
            | _, _ => None
            end
        | EmptyString => None
        end
      else if (code c <? 32)%N then None
      else match read_string tl with
           | Some (str, rest) => Some (String c str, rest)
           | None => None
           end
  end.

Fixpoint read_value (fuel : nat) (s : string) : option (json * string) :=
  match fuel with
  | O => None
  | S fuel' =>
      match skip_ws s with
      | String "[" tl =>
          match skip_ws tl with
          | String "]" rest => Some (JArray [], rest)
          | _ => read_items fuel' tl []
          end
      | String "{" tl =>
          match skip_ws tl with
          | String "}" rest => Some (JObject [], rest)
          | _ => read_members fuel' tl []
          end
      | s' =>
          match strip_prefix (String dquote "") s',
                strip_prefix "null" s', strip_prefix "true" s', strip_prefix "false" s' with
          | Some tl, _, _, _ =>
              match read_string tl with
              | Some (str, rest) => Some (JString str, rest)
              | None => None
              end
          | _, Some rest, _, _ => Some (JNull, rest)
          | _, _, Some rest, _ => Some (JBool true, rest)
          | _, _, _, Some rest => Some (JBool false, rest)
          | _, _, _, _ =>
              let '(lit, rest) := span (fun c => is_digit c || one_of "-+.eE" c) s' in
              if number_literal lit then Some (JNumber lit, rest) else None
          end
      end
  end
with read_items (fuel : nat) (s : string) (acc : list json) : option (json * string) :=
  match fuel with
  | O => None
  | S fuel' =>
      match read_value fuel' s with
      | Some (v, rest) =>
          match skip_ws rest with
          | String "," rest' => read_items fuel' rest' (v :: acc)
          | String "]" rest' => Some (JArray (rev (v :: acc)), rest')
          | _ => None
          end
      | None => None
      end
  end
with read_members (fuel : nat) (s : string) (acc : list (string * json))
  : option (json * string) :=
  match fuel with
  | O => None
  | S fuel' =>
      match strip_prefix (String dquote "") (skip_ws s) with
      | Some tl =>
          match read_string tl with
          | Some (key, rest) =>
              match skip_ws rest with
              | String ":" rest' =>
                  match read_value fuel' rest' with
                  | Some (v, rest'') =>
                      match skip_ws rest'' with
                      | String "," more => read_members fuel' more ((key, v) :: acc)
                      | String "}" more => Some (JObject (rev ((key, v) :: acc)), more)
                      | _ => None
                      end
                  | None => None
                  end
              | _ => None
              end
          | None => None
          end
      | None => None
      end
  end.

Definition parse (s : string) : option json :=
  match read_value (2 * String.length s + 2) s with
  | Some (v, rest) => if String.eqb (skip_ws rest) "" then Some v else None
  | None => None
  end.

Definition quote (s : string) : string :=
  String dquote
    (map_bytes (fun c => if is_dquote c || one_of "\" c then String "\" (String c "")
                         else String c "") s
     +:+ String dquote "").

Fixpoint stringify (v : json) : string :=
  match v with
  | JNull => "null"
  | JBool true => "true"
  | JBool false => "false"
  | JNumber lit => lit
  | JString s => quote s
  | JArray items => "[" +:+ JS.join "," (List.map stringify items) +:+ "]"
  | JObject members =>
      "{" +:+ JS.join "," (List.map (fun '(k, x) => quote k +:+ ":" +:+ stringify x) members)
      +:+ "}"
  end.

#[export] Instance platform : Platform := {|
  JSON_parse := parse;
  JSON_stringify := stringify;
  Number_toString_large := fun z => NilZero.string_of_int (Z.to_int z)
|}.

(** The configuration of a process started with an empty environment, of
    one started with a key, and of one started with [RUN_MODE=deployed]. *)
Definition local : Server.Config := Server.startup ∅.
Definition local_with_key : Server.Config :=
  Server.startup {[ "RUGPLAY_API_KEY" := "s3cret" ]}.
Definition deployed : Server.Config :=
  Server.startup {[ "RUN_MODE" := "deployed" ]}.

Definition request (params : list (string * JS.value)) : Server.Request :=
  {| Server.query := list_to_map params; Server.body := JNull |}.

Definition no_query : Server.Request := request [].

(** The document [{ a : 1 }] with its key quoted, as a child writes it. *)
Definition a_is_1 : string := "{" +:+ quote "a" +:+ ":1}".


End Sample.

(** * Properties *)

Import Bytes JS Conv WhatwgURL Server.

(** ** Byte strings *)

(** A property of a single byte, settled by running through the 256 bytes. *)
Ltac by_bytes c :=
  destruct c as [[] [] [] [] [] [] [] []]; vm_compute; try reflexivity; try discriminate;
  intros; try reflexivity; try discriminate; try congruence.

Lemma append_cons (x : ascii) (a b : string) :
  String x a +:+ b = String x (a +:+ b).
Proof. reflexivity. Qed.

Lemma append_nil_l (a : string) : "" +:+ a = a.
Proof. reflexivity. Qed.

(** [simpl] leaves [+:+] alone; this steps it on constructors. *)
Ltac step_append := rewrite ?append_cons, ?append_nil_l.

Lemma append_assoc (a b c : string) : (a +:+ b) +:+ c = a +:+ (b +:+ c).
Proof. induction a as [|x a IH]; step_append; [reflexivity | now rewrite IH]. Qed.

Lemma append_nil_r (a : string) : a +:+ "" = a.
Proof. induction a as [|x a IH]; step_append; [reflexivity | now rewrite IH]. Qed.

Lemma map_bytes_app f (a b : string) :
  map_bytes f (a +:+ b) = map_bytes f a +:+ map_bytes f b.
Proof.
  induction a as [|x a IH]; step_append; simpl; [reflexivity|].
  now rewrite IH, append_assoc.
Qed.

Lemma all_bytes_app p (a b : string) :
  all_bytes p (a +:+ b) = all_bytes p a && all_bytes p b.
Proof.
  induction a as [|x a IH]; step_append; simpl; [reflexivity|].
  now rewrite IH, andb_assoc.
Qed.

Lemma all_bytes_impl (p q : ascii -> bool) (s : string) :
  (forall c, p c = true -> q c = true) ->
  all_bytes p s = true -> all_bytes q s = true.
Proof.
  intros Hpq. induction s as [|x s IH]; simpl; [reflexivity|].
  intros [Hx Hs]%andb_true_iff. rewrite (Hpq _ Hx). now apply IH.
Qed.

Lemma all_bytes_map_bytes p f (s : string) :
  (forall c, all_bytes p (f c) = true) -> all_bytes p (map_bytes f s) = true.
Proof.
  intros Hf. induction s as [|x s IH]; simpl; [reflexivity|].
  now rewrite all_bytes_app, Hf, IH.
Qed.

Lemma filter_bytes_id keep (s : string) :
  all_bytes keep s = true -> filter_bytes keep s = s.
Proof.
  induction s as [|x s IH]; simpl; [reflexivity|].
  intros [Hx Hs]%andb_true_iff. now rewrite Hx, IH.
Qed.

Lemma cut_at_none sep (s : string) :
  all_bytes (fun c => negb (sep c)) s = true -> cut_at sep s = (s, None).
Proof.
  induction s as [|x s IH]; simpl; [reflexivity|].
  intros [Hx Hs]%andb_true_iff. apply negb_true_iff in Hx.
  now rewrite Hx, IH.
Qed.

Lemma cut_at_app sep (a b : string) (c : ascii) :
  all_bytes (fun c => negb (sep c)) a = true -> sep c = true ->
  cut_at sep (a +:+ String c b) = (a, Some b).
Proof.
  intros Ha Hc. induction a as [|x a IH]; step_append; simpl in *.
  - now rewrite Hc.
  - apply andb_true_iff in Ha as [Hx Ha]. apply negb_true_iff in Hx.
    now rewrite Hx, IH.
Qed.

Lemma split_on_none sep (s : string) :
  all_bytes (fun c => negb (sep c)) s = true -> split_on sep s = [s].
Proof.
  induction s as [|x s IH]; simpl; [reflexivity|].
  intros [Hx Hs]%andb_true_iff. apply negb_true_iff in Hx.
  now rewrite Hx, IH.
Qed.

Lemma split_on_app sep (a b : string) (c : ascii) :
  all_bytes (fun c => negb (sep c)) a = true -> sep c = true ->
  split_on sep (a +:+ String c b) = a :: split_on sep b.
Proof.
  intros Ha Hc. induction a as [|x a IH]; step_append; simpl in *.
  - now rewrite Hc.
  - apply andb_true_iff in Ha as [Hx Ha]. apply negb_true_iff in Hx.
    now rewrite Hx, IH.
Qed.

Lemma rev_string_onto_spec (s acc : string) :
  rev_string_onto s acc = rev_string s +:+ acc.
Proof.
  unfold rev_string. revert acc.
  induction s as [|x s IH]; intros acc; simpl; [reflexivity|].
  rewrite (IH (String x "")), IH, append_assoc. reflexivity.
Qed.

Lemma rev_string_onto_app (s t acc : string) :
  rev_string_onto (s +:+ t) acc = rev_string_onto t (rev_string_onto s acc).
Proof.
  revert acc. induction s as [|x s IH]; intros acc; step_append; simpl;
    [reflexivity | apply IH].
Qed.

Lemma rev_string_snoc (s : string) (c : ascii) :
  rev_string (s +:+ String c "") = String c (rev_string s).
Proof. unfold rev_string. now rewrite rev_string_onto_app. Qed.

Lemma rev_string_cons (s : string) (c : ascii) :
  rev_string (String c s) = rev_string s +:+ String c "".
Proof. unfold rev_string at 1. simpl. apply rev_string_onto_spec. Qed.

Lemma rev_string_involutive (s : string) : rev_string (rev_string s) = s.
Proof.
  induction s as [|x s IH]; [reflexivity|].
  now rewrite rev_string_cons, rev_string_snoc, IH.
Qed.

Lemma all_bytes_rev p (s : string) : all_bytes p (rev_string s) = all_bytes p s.
Proof.
  induction s as [|x s IH]; [reflexivity|].
  rewrite rev_string_cons, all_bytes_app, IH. simpl.
  rewrite andb_true_r. apply andb_comm.
Qed.

Lemma drop_while_none p (s : string) :
  all_bytes (fun c => negb (p c)) s = true -> drop_while p s = s.
Proof.
  destruct s as [|x s]; simpl; [reflexivity|].
  intros [Hx _]%andb_true_iff. apply negb_true_iff in Hx. now rewrite Hx.
Qed.

(** ** The query-string format *)

Lemma encode_byte_class (c : ascii) :
  all_bytes (fun x => URLEncoded.safe x || one_of "+%" x) (URLEncoded.encode_byte c) = true.
Proof. by_bytes c. Qed.

Lemma encode_class (s : string) :
  all_bytes (fun x => URLEncoded.safe x || one_of "+%" x) (URLEncoded.encode s) = true.
Proof. apply all_bytes_map_bytes, encode_byte_class. Qed.

Lemma encode_no (sep : ascii) (s : string) :
  (URLEncoded.safe sep || one_of "+%" sep) = false ->
  all_bytes (fun c => negb (Ascii.eqb sep c)) (URLEncoded.encode s) = true.
Proof.
  intros Hsep. eapply all_bytes_impl; [|apply encode_class].
  intros c Hc. apply negb_true_iff, Ascii.eqb_neq. intros ->. congruence.
Qed.

Lemma encode_query_bytes (s : string) :
  all_bytes query_byte (URLEncoded.encode s) = true.
Proof.
  eapply all_bytes_impl; [|apply encode_class]. intros c. by_bytes c.
Qed.

(** Decoding undoes the encoding of one byte, whatever follows. *)
Lemma decode_encode_byte (c : ascii) (t : string) :
  URLEncoded.decode (URLEncoded.encode_byte c +:+ t) = String c (URLEncoded.decode t).
Proof.
  unfold URLEncoded.decode.
  destruct c as [[] [] [] [] [] [] [] []]; reflexivity.
Qed.

Lemma decode_encode (s : string) : URLEncoded.decode (URLEncoded.encode s) = s.
Proof.
  induction s as [|c s IH]; [reflexivity|].
  unfold URLEncoded.encode in *. cbn [map_bytes].
  now rewrite decode_encode_byte, IH.
Qed.

Lemma serialize_cons (name v : string) (p : string * string) (l : list (string * string)) :
  URLEncoded.serialize ((name, v) :: p :: l) =
  URLEncoded.encode name +:+ "=" +:+ URLEncoded.encode v +:+ "&"
    +:+ URLEncoded.serialize (p :: l).
Proof. unfold URLEncoded.serialize. cbn [List.map join]. now rewrite !append_assoc. Qed.

Lemma serialize_one (name v : string) :
  URLEncoded.serialize [(name, v)] =
  URLEncoded.encode name +:+ "=" +:+ URLEncoded.encode v.
Proof. reflexivity. Qed.

Lemma serialize_query_bytes (l : list (string * string)) :
  all_bytes query_byte (URLEncoded.serialize l) = true.
Proof.
  induction l as [|[name v] [|p l] IH]; [reflexivity| |].
  - rewrite serialize_one, !all_bytes_app, !encode_query_bytes. reflexivity.
  - rewrite serialize_cons, !all_bytes_app, !encode_query_bytes, IH. reflexivity.
Qed.

Lemma serialize_nonempty (p : string * string) (l : list (string * string)) :
  URLEncoded.serialize (p :: l) <> "".
Proof.
  destruct p as [name v].
  assert (H : forall a b, a +:+ "=" +:+ b <> "").
  { intros [|x a] b; step_append; discriminate. }
  destruct l; [rewrite serialize_one | rewrite serialize_cons]; apply H.
Qed.

(** Parsing gives back the pairs that were serialized. *)
Lemma parse_serialize (l : list (string * string)) :
  URLEncoded.parse (URLEncoded.serialize l) = l.
Proof.
  assert (Hpiece : forall name v,
    (let '(n, x) := cut_at (Ascii.eqb "=") (URLEncoded.encode name +:+ "=" +:+ URLEncoded.encode v)
     in [(URLEncoded.decode n, URLEncoded.decode (default "" x))]) = [(name, v)]).
  { intros name v. step_append.
    rewrite cut_at_app; [| apply encode_no; reflexivity | reflexivity].
    simpl. rewrite !decode_encode. reflexivity. }
  assert (Hne : forall a b, String.eqb (a +:+ "=" +:+ b) "" = false).
  { intros [|x a] b; reflexivity. }
  induction l as [|[name v] [|p l] IH]; [reflexivity| |].
  - rewrite serialize_one. unfold URLEncoded.parse.
    rewrite split_on_none.
    + cbn [flat_map]. rewrite Hne, Hpiece. reflexivity.
    + rewrite !all_bytes_app, !encode_no by reflexivity. reflexivity.
  - rewrite serialize_cons. unfold URLEncoded.parse in *.
    rewrite <- !append_assoc. rewrite (append_assoc _ "&"). step_append.
    rewrite split_on_app.
    + cbn [flat_map]. rewrite IH, append_assoc, Hne, Hpiece. reflexivity.
    + rewrite !all_bytes_app, !encode_no by reflexivity. reflexivity.
    + reflexivity.
Qed.

(** ** The URL parser on the URLs of the handlers *)

(** Both sides of an equation between strings, brought to the same shape. *)
Ltac norm_append :=
  repeat (rewrite append_assoc || rewrite append_cons
          || rewrite append_nil_l || rewrite append_nil_r).

Lemma utf8_percent_encode_id set (s : string) :
  all_bytes (fun c => negb (set c)) s = true -> utf8_percent_encode set s = s.
Proof.
  unfold utf8_percent_encode.
  induction s as [|x s IH]; simpl; [reflexivity|].
  intros [Hx Hs]%andb_true_iff. apply negb_true_iff in Hx.
  rewrite Hx, IH by assumption. reflexivity.
Qed.

Lemma trim_id (s : string) :
  all_bytes (fun c => negb (is_c0_or_space c)) s = true ->
  rev_string (drop_while is_c0_or_space (rev_string s)) = s.
Proof.
  intros Hs. rewrite drop_while_none by now rewrite all_bytes_rev.
  apply rev_string_involutive.
Qed.

(** A query string written by [URLSearchParams] is stored as it is. *)
Lemma set_search_query_bytes (url : URL) (s : string) :
  s <> "" -> all_bytes query_byte s = true ->
  set_search url s =
  {| url_origin := url_origin url; url_path := url_path url;
     url_query := Some s; url_fragment := url_fragment url |}.
Proof.
  intros Hne Hs. unfold set_search.
  destruct (String.eqb_spec s "") as [->|_]; [congruence|].
  assert (Hq : match s with String "?" tl => tl | _ => s end = s).
  { destruct s as [|c s']; [reflexivity|]. simpl in Hs.
    apply andb_true_iff in Hs as [Hc _]. revert Hc. clear. by_bytes c. }
  rewrite Hq, filter_bytes_id, utf8_percent_encode_id; [reflexivity| |].
  - eapply all_bytes_impl; [|exact Hs]. intros c. by_bytes c.
  - eapply all_bytes_impl; [|exact Hs]. intros c. by_bytes c.
Qed.

Lemma set_search_serialize (url : URL) (p : string * string) (l : list (string * string)) :
  set_search url (URLEncoded.serialize (p :: l)) =
  {| url_origin := url_origin url; url_path := url_path url;
     url_query := Some (URLEncoded.serialize (p :: l));
     url_fragment := url_fragment url |}.
Proof.
  apply set_search_query_bytes; [apply serialize_nonempty | apply serialize_query_bytes].
Qed.

Lemma valid_symbol_bytes (symbol : string) :
  valid_symbol symbol = true -> all_bytes segment_byte symbol = true.
Proof. unfold valid_symbol. now intros [[H _]%andb_true_iff _]%andb_true_iff. Qed.

(** The parser keeps a path whose last segment is a valid symbol. *)
Lemma new_URL_resource (origin resource symbol : string) :
  resource = "coin" \/ resource = "holders" ->
  valid_symbol symbol = true ->
  new_URL origin ("/api/v1/" +:+ resource +:+ "/" +:+ symbol) =
  {| url_origin := origin; url_path := ["api"; "v1"; resource; symbol];
     url_query := None; url_fragment := None |}.
Proof.
  intros Hres Hvalid. pose proof (valid_symbol_bytes _ Hvalid) as Hbytes.
  unfold valid_symbol in Hvalid.
  apply andb_true_iff in Hvalid as [[_ Hsingle]%andb_true_iff Hdouble].
  apply negb_true_iff in Hsingle, Hdouble.
  assert (Hclean : all_bytes (fun c => segment_byte c || is_slash c)
                     ("/api/v1/" +:+ resource +:+ "/" +:+ symbol) = true).
  { rewrite !all_bytes_app.
    rewrite (all_bytes_impl segment_byte _ symbol) by (try assumption; intros c ->; reflexivity).
    destruct Hres as [-> | ->]; reflexivity. }
  unfold new_URL.
  rewrite trim_id by (eapply all_bytes_impl; [|exact Hclean]; intros c; by_bytes c).
  rewrite filter_bytes_id by (eapply all_bytes_impl; [|exact Hclean]; intros c; by_bytes c).
  rewrite cut_at_none by (eapply all_bytes_impl; [|exact Hclean]; intros c; by_bytes c).
  rewrite cut_at_none by (eapply all_bytes_impl; [|exact Hclean]; intros c; by_bytes c).
  assert (Hseg : all_bytes (fun c => negb (is_slash c)) symbol = true).
  { eapply all_bytes_impl; [|exact Hbytes]. intros c. by_bytes c. }
  assert (Henc : utf8_percent_encode path_set symbol = symbol).
  { apply utf8_percent_encode_id. eapply all_bytes_impl; [|exact Hbytes].
    intros c. by_bytes c. }
  destruct Hres as [-> | ->]; norm_append;
    cbn [split_on is_slash one_of existsb list_ascii_of_string Ascii.eqb Bool.eqb orb];
    rewrite split_on_none by assumption;
    cbn [path_state]; rewrite Henc, Hsingle, Hdouble; reflexivity.
Qed.

Lemma serialize_app (l1 l2 : list (string * string)) :
  l1 <> [] -> l2 <> [] ->
  URLEncoded.serialize (l1 ++ l2)%list =
  URLEncoded.serialize l1 +:+ "&" +:+ URLEncoded.serialize l2.
Proof.
  intros H1 H2. induction l1 as [|[name v] [|p l1] IH]; [congruence| |].
  - destruct l2 as [|q l2]; [congruence|]. cbn [app].
    rewrite serialize_cons, serialize_one. now rewrite !append_assoc.
  - change (((name, v) :: p :: l1) ++ l2)%list with ((name, v) :: p :: (l1 ++ l2))%list.
    rewrite !serialize_cons. change (p :: l1 ++ l2)%list with ((p :: l1) ++ l2)%list.
    rewrite IH by discriminate. now rewrite !append_assoc.
Qed.

(** The pairs read back from a target URL are those that were serialized
    into it. *)
Lemma search_params_of_target (front : string) (l : list (string * string)) :
  all_bytes (fun c => negb (one_of "?#" c)) front = true ->
  search_params_of (front +:+ "?" +:+ URLEncoded.serialize l) = l.
Proof.
  intros Hfront. unfold search_params_of.
  rewrite cut_at_none.
  - step_append. rewrite cut_at_app; [apply parse_serialize| |reflexivity].
    eapply all_bytes_impl; [|exact Hfront]. intros c. by_bytes c.
  - rewrite !all_bytes_app. apply andb_true_iff. split.
    + eapply all_bytes_impl; [|exact Hfront]. intros c. by_bytes c.
    + cbn [all_bytes]. eapply all_bytes_impl; [|apply serialize_query_bytes].
      intros c. by_bytes c.
Qed.

(** ** The handlers *)

(** The listeners of [/api/graph] answer at the first [close], from the
    output accumulated until then. *)
Lemma graph_listen_close `{!Platform} (pythonOutput : string) (before after : list ChildEvent)
    (code : option Z) :
  forallb (fun e => negb (is_close e)) before = true ->
  graph_listen pythonOutput (before ++ close code :: after)%list =
  Some (on_close (pythonOutput +:+ stdout_of before) code).
Proof.
  revert pythonOutput.
  induction before as [|e before IH]; intros pythonOutput Hbefore.
  - cbn. now rewrite append_nil_r.
  - cbn [forallb] in Hbefore. apply andb_true_iff in Hbefore as [He Hbefore].
    destruct e as [data|data|c]; [| |discriminate]; cbn [app graph_listen stdout_of].
    + rewrite IH by assumption. now rewrite append_assoc.
    + now rewrite IH.
Qed.


Section HandlerProperties.
Context `{!Platform}.
Implicit Types (cfg : Config) (req : Request) (route : Route).

Lemma param_absent req (name : string) :
  query req !! name = None -> param req name = Undefined.
Proof. unfold param. now intros ->. Qed.

Lemma param_present req (name : string) (v : value) :
  query req !! name = Some v -> param req name = v.
Proof. unfold param. now intros ->. Qed.

(** Every proxy route is one call of the generic fetch handler. *)
Lemma proxy_fetches cfg route req :
  exists url, proxy cfg route req = handleApiRequest cfg url req.
Proof. destruct route; eexists; reflexivity. Qed.

Lemma new_URL_market :
  new_URL "https://rugplay.com" "/api/v1/market" =
  {| url_origin := "https://rugplay.com"; url_path := ["api"; "v1"; "market"];
     url_query := None; url_fragment := None |}.
Proof. reflexivity. Qed.

(** The target of the market-data route. *)
Lemma market_data_target cfg req :
  get_api_market_data cfg req =
  handleApiRequest cfg
    ("https://rugplay.com/api/v1/market?"
       +:+ URLEncoded.serialize (URLSearchParams (market_params req))) req.
Proof.
  unfold get_api_market_data. f_equal.
  unfold market_params. cbn [URLSearchParams List.map].
  rewrite set_search_serialize, new_URL_market. unfold href.
  cbn [url_origin url_path url_query url_fragment List.map String.concat].
  norm_append. reflexivity.
Qed.

(** The targets of the two coin routes, when what stands for the symbol
    is kept by the URL parser. *)
Lemma coin_info_target cfg req :
  valid_symbol (ToString (param req "symbol")) = true ->
  get_api_coin_info cfg req =
  handleApiRequest cfg
    ("https://rugplay.com/api/v1/coin/" +:+ ToString (param req "symbol") +:+ "?"
       +:+ URLEncoded.serialize (URLSearchParams (coin_info_params req))) req.
Proof.
  intros Hvalid. unfold get_api_coin_info. f_equal.
  change ("/api/v1/coin/" +:+ ToString (param req "symbol"))
    with ("/api/v1/" +:+ "coin" +:+ "/" +:+ ToString (param req "symbol")).
  rewrite new_URL_resource by auto.
  unfold coin_info_params. cbn [URLSearchParams List.map].
  rewrite set_search_serialize. unfold href. cbn [url_origin url_path url_query url_fragment].
  cbn [List.map String.concat]. norm_append. reflexivity.
Qed.

Lemma coin_holders_target cfg req :
  valid_symbol (ToString (param req "symbol")) = true ->
  get_api_coin_holders cfg req =
  handleApiRequest cfg
    ("https://rugplay.com/api/v1/holders/" +:+ ToString (param req "symbol") +:+ "?"
       +:+ URLEncoded.serialize (URLSearchParams (coin_holders_params req))) req.
Proof.
  intros Hvalid. unfold get_api_coin_holders. f_equal.
  change ("/api/v1/holders/" +:+ ToString (param req "symbol"))
    with ("/api/v1/" +:+ "holders" +:+ "/" +:+ ToString (param req "symbol")).
  rewrite new_URL_resource by auto.
  unfold coin_holders_params. cbn [URLSearchParams List.map].
  rewrite set_search_serialize. unfold href. cbn [url_origin url_path url_query url_fragment].
  cbn [List.map String.concat]. norm_append. reflexivity.
Qed.

(** C3.  On each of the four proxy routes, when the upstream response has
    a status outside 200..299 and its body reads as the text [B], the
    handler answers with that same status and the JSON body
    [{error: "Failed to fetch data from external API.", details: B}]. *)
Theorem upstream_error_is_mirrored cfg route req (response : Response) (B : string) :
  ok response = false ->
  text response = Some B ->
  settle (proxy cfg route req) (Fulfilled response) =
  Respond (status response)
    (JObject [("error", JString "Failed to fetch data from external API.");
              ("details", JString B)]).
Proof.
  intros Hok Htext. destruct (proxy_fetches cfg route req) as [url ->].
  cbn [settle handleApiRequest]. now rewrite Hok, Htext.
Qed.

(** C4.  When the child process closes and [out] is the standard output
    accumulated until then, each chunk decoded by itself: with exit code
    0 and [out] parsing as the JSON value [v], the answer is
    [{success: true, graphData: v}]; with any other exit code it
    is status 500 with [{success: false, error: "Graph generation failed"}],
    whatever the JSON parser is, so the output is not parsed; with exit code
    0 and [out] not parsing, it is status 500 with
    [{success: false, error: "Failed to process graph data"}]. *)
Theorem graph_close_outcomes (before after : list ChildEvent) (code : option Z) :
  forallb (fun e => negb (is_close e)) before = true ->
  let events := (before ++ close code :: after)%list in
  let out := stdout_of before in
  (code = Some 0 -> forall v, JSON_parse out = Some v ->
     post_api_graph events =
     Some (Respond 200 (JObject [("success", JBool true); ("graphData", v)])))
  /\ (code <> Some 0 -> forall P : Platform,
        @post_api_graph P events =
        Some (Respond 500 (JObject [("success", JBool false);
                                    ("error", JString "Graph generation failed")])))
  /\ (code = Some 0 -> JSON_parse out = None ->
        post_api_graph events =
        Some (Respond 500 (JObject [("success", JBool false);
                                    ("error", JString "Failed to process graph data")]))).
Proof.
  intros Hbefore events out. unfold post_api_graph, events.
  repeat split.
  - intros -> v Hv. rewrite graph_listen_close by assumption.
    rewrite append_nil_l. unfold on_close. fold out. now rewrite decide_True, Hv.
  - intros Hcode P. rewrite graph_listen_close by assumption.
    unfold on_close. now rewrite decide_False.
  - intros -> Hnone. rewrite graph_listen_close by assumption.
    rewrite append_nil_l. unfold on_close. fold out. now rewrite decide_True, Hnone.
Qed.

(** C1 (as amended).  On the market-data route, a forwarded parameter that
    is absent from the inbound query string is not omitted: the query string
    of the upstream URL carries its key with the value [undefined], whatever
    the other parameters are. *)
Theorem market_data_absent_param_forwarded cfg req (name : string) :
  In name ["search"; "sortBy"; "sortOrder"; "priceFilter"; "changeFilter"] ->
  query req !! name = None ->
  let search := URLEncoded.serialize (URLSearchParams (market_params req)) in
  issued (get_api_market_data cfg req) =
    Some ("GET", "https://rugplay.com/api/v1/market?" +:+ search)
  /\ In (name, "undefined")
       (search_params_of ("https://rugplay.com/api/v1/market?" +:+ search)).
Proof.
  intros Hname Habsent search. split.
  - now rewrite market_data_target.
  - unfold search.
    change ("https://rugplay.com/api/v1/market?" +:+ ?s)
      with ("https://rugplay.com/api/v1/market" +:+ "?" +:+ s).
    rewrite search_params_of_target by reflexivity.
    unfold market_params. cbn [URLSearchParams List.map].
    apply param_absent in Habsent. cbn [In] in Hname.
    destruct Hname as [<-|[<-|[<-|[<-|[<-|[]]]]]]; rewrite Habsent; cbn; auto 10.
Qed.

(** C2.  On every proxy route the outbound headers are those of
    [getAuthHeaders].  In local mode their Authorization entry is [Bearer]
    followed by the configured key, whatever the request is; otherwise it is
    [Bearer] followed by the [apikey] parameter of the request. *)
Theorem authorization_by_mode cfg route req :
  outbound_headers (proxy cfg route req) = Some (getAuthHeaders cfg req)
  /\ (runMode cfg = "local" ->
      getAuthHeaders cfg req !! "Authorization"
      = Some ("Bearer " +:+ ToString (API_KEY cfg)))
  /\ (runMode cfg <> "local" ->
      getAuthHeaders cfg req !! "Authorization"
      = Some ("Bearer " +:+ ToString (param req "apikey"))).
Proof.
  repeat split.
  - destruct (proxy_fetches cfg route req) as [url ->]. reflexivity.
  - intros Hlocal. unfold getAuthHeaders.
    repeat case_decide; try contradiction.
    rewrite lookup_insert_ne by done. apply lookup_insert_eq.
  - intros Hdeployed. unfold getAuthHeaders.
    repeat case_decide; try contradiction.
    cbv zeta. rewrite !lookup_insert_ne by done. apply lookup_insert_eq.
Qed.

(** C5.  For a valid symbol, the coin-info and coin-holders routes call
    [https://rugplay.com/api/v1/coin/SYMBOL?timeframe=...] and
    [https://rugplay.com/api/v1/holders/SYMBOL?limit=...]: the symbol is
    the last path segment, and the query string is the form-urlencoded
    parameter, made of unreserved bytes, [+] and percent escapes only, from
    which the format's parser recovers the parameter. *)
Theorem coin_routes_target_url cfg req (symbol : string) :
  query req !! "symbol" = Some (Str symbol) ->
  valid_symbol symbol = true ->
  let timeframe := ToString (or (param req "timeframe") (Str "1m")) in
  let limit := ToString (or (param req "limit") (Num (Int 50))) in
  issued (get_api_coin_info cfg req) =
    Some ("GET", "https://rugplay.com/api" +:+ "/v1/coin/" +:+ symbol +:+ "?"
                   +:+ "timeframe=" +:+ URLEncoded.encode timeframe)
  /\ issued (get_api_coin_holders cfg req) =
    Some ("GET", "https://rugplay.com/api" +:+ "/v1/holders/" +:+ symbol +:+ "?"
                   +:+ "limit=" +:+ URLEncoded.encode limit)
  /\ search_params_of ("https://rugplay.com/api" +:+ "/v1/coin/" +:+ symbol +:+ "?"
                         +:+ "timeframe=" +:+ URLEncoded.encode timeframe)
     = [("timeframe", timeframe)]
  /\ search_params_of ("https://rugplay.com/api" +:+ "/v1/holders/" +:+ symbol +:+ "?"
                         +:+ "limit=" +:+ URLEncoded.encode limit)
     = [("limit", limit)]
  /\ all_bytes (fun c => URLEncoded.safe c || one_of "+%" c)
       (URLEncoded.encode timeframe +:+ URLEncoded.encode limit) = true.
Proof.
  intros Hsymbol Hvalid timeframe limit.
  apply param_present in Hsymbol.
  repeat split.
  - rewrite coin_info_target by now rewrite Hsymbol.
    rewrite Hsymbol. cbn [issued handleApiRequest ToString].
    unfold coin_info_params. cbn [URLSearchParams List.map].
    rewrite serialize_one. reflexivity.
  - rewrite coin_holders_target by now rewrite Hsymbol.
    rewrite Hsymbol. cbn [issued handleApiRequest ToString].
    unfold coin_holders_params. cbn [URLSearchParams List.map].
    rewrite serialize_one. reflexivity.
  - refine (search_params_of_target ("https://rugplay.com/api/v1/coin/" +:+ symbol)
              [("timeframe", timeframe)] _).
    rewrite all_bytes_app. apply andb_true_iff. split; [reflexivity|].
    eapply all_bytes_impl; [|exact (valid_symbol_bytes _ Hvalid)]. intros c. by_bytes c.
  - refine (search_params_of_target ("https://rugplay.com/api/v1/holders/" +:+ symbol)
              [("limit", limit)] _).
    rewrite all_bytes_app. apply andb_true_iff. split; [reflexivity|].
    eapply all_bytes_impl; [|exact (valid_symbol_bytes _ Hvalid)]. intros c. by_bytes c.
  - now rewrite all_bytes_app, !encode_class.
Qed.

(** C6 (as amended).  Outside local mode the headers of [getAuthHeaders]
    are exactly Authorization, Content-Type and seven browser-emulation
    headers: User-Agent, Accept, Accept-Language, Accept-Encoding,
    Connection, Cache-Control and also Pragma. *)
Theorem deployed_header_names cfg req :
  runMode cfg <> "local" ->
  dom (getAuthHeaders cfg req) =
  ({[ "Authorization"; "Content-Type"; "User-Agent"; "Accept"; "Accept-Language";
      "Accept-Encoding"; "Connection"; "Pragma"; "Cache-Control" ]} : gset string).
Proof.
  intros Hdeployed. unfold getAuthHeaders.
  repeat case_decide; try contradiction. cbv zeta.
  rewrite !dom_insert_L, dom_empty_L. set_solver.
Qed.

(** C7.  On the market-data route, a request with neither [page] nor
    [limit] is forwarded with [page=1] and [limit=12], and a request with
    [page=3] and [limit=5] with exactly these values; they close the query
    string of the upstream URL, after the five filter parameters. *)
Theorem market_data_page_limit_defaults cfg req :
  let front := "https://rugplay.com/api/v1/market?"
               +:+ URLEncoded.serialize (URLSearchParams (firstn 5 (market_params req))) in
  (query req !! "page" = None -> query req !! "limit" = None ->
   issued (get_api_market_data cfg req) = Some ("GET", front +:+ "&page=1&limit=12"))
  /\ (query req !! "page" = Some (Str "3") -> query req !! "limit" = Some (Str "5") ->
      issued (get_api_market_data cfg req) = Some ("GET", front +:+ "&page=3&limit=5")).
Proof.
  intros front. unfold front. rewrite market_data_target. cbn [issued handleApiRequest].
  change (market_params req)
    with (firstn 5 (market_params req) ++ skipn 5 (market_params req))%list at 1 3.
  unfold URLSearchParams. rewrite List.map_app, serialize_app by discriminate.
  split.
  - intros Hpage%param_absent Hlimit%param_absent.
    cbn [skipn market_params]. rewrite Hpage, Hlimit.
    now rewrite append_assoc.
  - intros Hpage%param_present Hlimit%param_present.
    cbn [skipn market_params]. rewrite Hpage, Hlimit.
    now rewrite append_assoc.
Qed.

(** C8.  In local mode with no key in the environment, [getAuthHeaders]
    still returns headers for every request; their Authorization entry is
    built from the absent key, [Bearer undefined], and every proxy route
    makes its upstream call with these headers. *)
Theorem local_mode_without_secret (env : gmap string string) route req :
  runMode (startup env) = "local" ->
  env !! "RUGPLAY_API_KEY" = None ->
  let cfg := startup env in
  getAuthHeaders cfg req !! "Authorization" = Some "Bearer undefined"
  /\ exists url next,
       proxy cfg route req = Fetch url "GET" (getAuthHeaders cfg req) next.
Proof.
  intros Hlocal Hkey cfg. split.
  - unfold getAuthHeaders. fold cfg in Hlocal.
    repeat case_decide; try contradiction.
    rewrite lookup_insert_ne by done. rewrite lookup_insert_eq.
    unfold cfg, startup in *. cbn [API_KEY runMode] in *.
    rewrite decide_True by assumption. now rewrite Hkey.
  - destruct (proxy_fetches cfg route req) as [url ->].
    unfold handleApiRequest. eauto.
Qed.

(** C10.  On the coin-info and coin-holders routes a request without
    [symbol] is not refused: the handler makes the upstream call, with
    [undefined] as the path segment of the symbol. *)
Theorem coin_routes_without_symbol cfg req :
  query req !! "symbol" = None ->
  issued (get_api_coin_info cfg req) =
    Some ("GET", "https://rugplay.com/api/v1/coin/undefined?timeframe="
                   +:+ URLEncoded.encode (ToString (or (param req "timeframe") (Str "1m"))))
  /\ issued (get_api_coin_holders cfg req) =
    Some ("GET", "https://rugplay.com/api/v1/holders/undefined?limit="
                   +:+ URLEncoded.encode (ToString (or (param req "limit") (Num (Int 50))))).
Proof.
  intros Hsymbol%param_absent. split.
  - rewrite coin_info_target by now rewrite Hsymbol.
    rewrite Hsymbol. cbn [issued handleApiRequest ToString].
    unfold coin_info_params. cbn [URLSearchParams List.map].
    rewrite serialize_one. norm_append. reflexivity.
  - rewrite coin_holders_target by now rewrite Hsymbol.
    rewrite Hsymbol. cbn [issued handleApiRequest ToString].
    unfold coin_holders_params. cbn [URLSearchParams List.map].
    rewrite serialize_one. norm_append. reflexivity.
Qed.

End HandlerProperties.

(** An integer that a double holds exactly is forwarded as its decimal
    digits: the encoding leaves them as they are. *)
Lemma encode_safe_id (s : string) :
  all_bytes URLEncoded.safe s = true -> URLEncoded.encode s = s.
Proof.
  unfold URLEncoded.encode.
  induction s as [|c s IH]; cbn [map_bytes all_bytes]; [reflexivity|].
  intros [Hc Hs]%andb_true_iff. rewrite IH by assumption.
  assert (Hbyte : URLEncoded.encode_byte c = String c "").
  { revert Hc. clear. by_bytes c. }
  now rewrite Hbyte.
Qed.

Lemma decimal_safe (z : Z) :
  all_bytes URLEncoded.safe (NilZero.string_of_int (Z.to_int z)) = true.
Proof.
  assert (Huint : forall d, all_bytes URLEncoded.safe (NilEmpty.string_of_uint d) = true).
  { induction d; cbn [NilEmpty.string_of_uint all_bytes]; try rewrite IHd; reflexivity. }
  assert (Hzero : forall d, all_bytes URLEncoded.safe (NilZero.string_of_uint d) = true).
  { intros d. destruct d; try apply Huint. reflexivity. }
  destruct (Z.to_int z) as [d|d]; cbn [NilZero.string_of_int all_bytes].
  - apply Hzero.
  - now rewrite Hzero.
Qed.

Lemma encode_Number_toString_exact `{!Platform} (z : Z) :
  Z.abs z <= 2 ^ 53 ->
  URLEncoded.encode (Number_toString (Int z)) = NilZero.string_of_int (Z.to_int z).
Proof.
  intros Hz. unfold Number_toString.
  destruct (Z.leb_spec (Z.abs z) (2 ^ 53)); [|lia].
  apply encode_safe_id, decimal_safe.
Qed.

(** ** Reading a decimal numeral *)

(** A string that does not go on with a decimal digit. *)
Lemma digits_prefix_stop (junk : string) (acc : option Z) :
  match junk with String c _ => negb (is_digit c) | EmptyString => true end = true ->
  digits_prefix 10 junk acc = acc.
Proof.
  destruct junk as [|c rest]; [reflexivity|]. intros Hc%negb_true_iff.
  cbn [digits_prefix]. replace (digit_value 10 c) with (@None Z); [reflexivity|].
  revert Hc. clear. by_bytes c.
Qed.

Lemma digits_prefix_uint_acc (d : Decimal.uint) (acc : positive) (junk : string) :
  match junk with String c _ => negb (is_digit c) | EmptyString => true end = true ->
  digits_prefix 10 (NilEmpty.string_of_uint d +:+ junk) (Some (Z.pos acc)) =
  Some (Z.pos (Pos.of_uint_acc d acc)).
Proof.
  intros Hjunk. revert acc.
  induction d; intros acc; cbn [NilEmpty.string_of_uint Pos.of_uint_acc];
    step_append; [now apply digits_prefix_stop|..];
    cbn [digits_prefix]; (etransitivity; [|apply IHd]); f_equal; f_equal;
    cbn; lia.
Qed.

(** The decimal numeral of a positive number does not start with 0. *)
Lemma to_uint_head_nonzero (p : positive) (l : Decimal.uint) :
  Pos.to_uint p <> Decimal.D0 l.
Proof.
  intros Hd.
  assert (Hnorm : Decimal.unorm (Pos.to_uint p) = Pos.to_uint p).
  { rewrite <- (DecimalPos.Unsigned.to_of (Pos.to_uint p)),
            DecimalPos.Unsigned.of_to. reflexivity. }
  rewrite Hd in Hnorm. unfold Decimal.unorm in Hnorm.
  destruct (Decimal.nzhead (Decimal.D0 l)) eqn:Hnz;
    try (exact (nzhead_nonzero _ _ (eq_trans Hnz Hnorm))).
  injection Hnorm as <-. exact (Unsigned.to_uint_nonzero p Hd).
Qed.

(** [parseInt] steps over the digits of a positive numeral as
    [Pos.of_uint] does. *)
Lemma digits_prefix_to_uint (p : positive) (junk : string) :
  match junk with String c _ => negb (is_digit c) | EmptyString => true end = true ->
  digits_prefix 10 (NilEmpty.string_of_uint (Pos.to_uint p) +:+ junk) None =
  Some (Z.pos p).
Proof.
  intros Hjunk. pose proof (DecimalPos.Unsigned.of_to p) as Hof.
  destruct (Pos.to_uint p) as [|l|l|l|l|l|l|l|l|l|l] eqn:Hd;
    cbn [Pos.of_uint] in Hof; try discriminate;
    cbn [NilEmpty.string_of_uint]; step_append; cbn [digits_prefix].
  1: { exfalso. exact (to_uint_head_nonzero p l Hd). }
  all: (etransitivity; [apply (digits_prefix_uint_acc l _ junk Hjunk)|]);
    injection Hof as ->; reflexivity.
Qed.

(** White space, a sign and a radix prefix are looked for and not found
    before a positive decimal numeral. *)
Lemma parseInt_string_pos (p : positive) (junk : string) :
  match junk with String c _ => negb (is_digit c) | EmptyString => true end = true ->
  parseInt_string (NilEmpty.string_of_uint (Pos.to_uint p) +:+ junk) = Int (Z.pos p).
Proof.
  intros Hjunk. pose proof (digits_prefix_to_uint p junk Hjunk) as Hdigits.
  unfold parseInt_string.
  destruct (Pos.to_uint p) as [|l|l|l|l|l|l|l|l|l|l] eqn:Hd.
  1: { exfalso. exact (Unsigned.to_uint_nonnil p Hd). }
  1: { exfalso. exact (to_uint_head_nonzero p l Hd). }
  all: cbn [NilEmpty.string_of_uint] in *; revert Hdigits; step_append;
    intros Hdigits; cbn [String.length skip_white];
    match goal with
    | |- context [strip_one white_space ?s] =>
        change (strip_one white_space s) with (@None string)
    end; cbv beta iota; rewrite Hdigits; reflexivity.
Qed.

Lemma parseInt_string_neg (p : positive) (junk : string) :
  match junk with String c _ => negb (is_digit c) | EmptyString => true end = true ->
  parseInt_string (String "-" (NilEmpty.string_of_uint (Pos.to_uint p) +:+ junk))
  = Int (Z.neg p).
Proof.
  intros Hjunk. pose proof (digits_prefix_to_uint p junk Hjunk) as Hdigits.
  unfold parseInt_string.
  destruct (Pos.to_uint p) as [|l|l|l|l|l|l|l|l|l|l] eqn:Hd.
  1: { exfalso. exact (Unsigned.to_uint_nonnil p Hd). }
  1: { exfalso. exact (to_uint_head_nonzero p l Hd). }
  all: cbn [NilEmpty.string_of_uint] in *; revert Hdigits; step_append;
    intros Hdigits; cbn [String.length skip_white];
    match goal with
    | |- context [strip_one white_space ?s] =>
        change (strip_one white_space s) with (@None string)
    end; cbv beta iota; rewrite Hdigits; reflexivity.
Qed.

(** [parseInt] reads a nonzero integer back from its decimal numeral, and
    stops at the first byte that is not a digit. *)
Lemma parseInt_string_decimal (z : Z) (junk : string) :
  z <> 0 ->
  match junk with String c _ => negb (is_digit c) | EmptyString => true end = true ->
  parseInt_string (NilZero.string_of_int (Z.to_int z) +:+ junk) = Int z.
Proof.
  intros Hz Hjunk. destruct z as [|p|p]; [congruence| |];
    cbn [Z.to_int NilZero.string_of_int]; unfold NilZero.string_of_uint.
  - destruct (Pos.to_uint p) eqn:Hd;
      [exfalso; exact (Unsigned.to_uint_nonnil p Hd)|..];
      rewrite <- Hd; now apply parseInt_string_pos.
  - step_append.
    destruct (Pos.to_uint p) eqn:Hd;
      [exfalso; exact (Unsigned.to_uint_nonnil p Hd)|..];
      rewrite <- Hd; now apply parseInt_string_neg.
Qed.



(** ** The query string of a target, whatever its path *)

Lemma percent_encoded_path_bytes (s : string) :
  all_bytes (fun c => negb (one_of "?#" c)) (utf8_percent_encode path_set s) = true.
Proof.
  unfold utf8_percent_encode. apply all_bytes_map_bytes. intros c. by_bytes c.
Qed.

Lemma path_state_bytes (segments path : list string) :
  Forall (fun seg => all_bytes (fun c => negb (one_of "?#" c)) seg = true) path ->
  Forall (fun seg => all_bytes (fun c => negb (one_of "?#" c)) seg = true)
    (path_state segments path).
Proof.
  revert path. induction segments as [|seg rest IH]; intros path Hpath; [assumption|].
  cbn [path_state]. apply IH.
  assert (Hshort : Forall (fun seg => all_bytes (fun c => negb (one_of "?#" c)) seg = true)
                     (removelast path)).
  { clear -Hpath. induction Hpath as [|x l Hx Hl IHl]; [constructor|].
    cbn [removelast]. destruct l; [constructor|]. constructor; assumption. }
  assert (Hnil : Forall (fun seg => all_bytes (fun c => negb (one_of "?#" c)) seg = true) [""])
    by (constructor; [reflexivity|constructor]).
  repeat match goal with
         | |- context [if ?b then _ else _] => destruct b
         end;
    try assumption; try (apply Forall_app; split; assumption).
  apply Forall_app; split; [assumption|].
  constructor; [apply percent_encoded_path_bytes | constructor].
Qed.

Lemma concat_path_bytes (path : list string) :
  Forall (fun seg => all_bytes (fun c => negb (one_of "?#" c)) seg = true) path ->
  all_bytes (fun c => negb (one_of "?#" c))
    (String.concat "" (List.map (fun seg => "/" +:+ seg) path)) = true.
Proof.
  induction 1 as [|seg path Hseg Hpath IH]; [reflexivity|].
  cbn [List.map String.concat]. destruct path as [|seg' path'].
  - cbn [List.map]. now rewrite all_bytes_app, Hseg.
  - cbn [List.map] in *. now rewrite !all_bytes_app, Hseg, IH.
Qed.

Lemma new_URL_origin (origin rest : string) :
  url_origin (new_URL origin rest) = origin.
Proof.
  unfold new_URL. destruct (cut_at _ _) as [before frag].
  destruct (cut_at _ before) as [pathname search]. reflexivity.
Qed.

(** Once [search] is set to a serialized list, that list is what the
    target carries, whatever was parsed into the path and the fragment. *)
Lemma search_params_of_set_search (rest : string) (p : string * string)
    (l : list (string * string)) :
  search_params_of
    (href (set_search (new_URL "https://rugplay.com" rest) (URLEncoded.serialize (p :: l))))
  = p :: l.
Proof.
  rewrite set_search_serialize. unfold href.
  cbn [url_origin url_path url_query url_fragment].
  assert (Hpath : all_bytes (fun c => negb (one_of "?#" c))
            ("https://rugplay.com"
             +:+ String.concat "" (List.map (fun seg => "/" +:+ seg)
                                     (url_path (new_URL "https://rugplay.com" rest)))) = true).
  { rewrite all_bytes_app. apply andb_true_iff. split; [reflexivity|].
    apply concat_path_bytes. unfold new_URL.
    destruct (cut_at _ _) as [before frag]. destruct (cut_at _ before) as [pathname search].
    cbn [url_path]. apply path_state_bytes. constructor. }
  assert (Hquery : all_bytes (fun c => negb (Ascii.eqb "#" c))
            (URLEncoded.serialize (p :: l)) = true).
  { eapply all_bytes_impl; [|apply serialize_query_bytes]. intros c. by_bytes c. }
  set (pathname := String.concat "" _) in *.
  set (search := URLEncoded.serialize (p :: l)) in *.
  assert (Hfront : all_bytes (fun c => negb (Ascii.eqb "#" c))
                     ("https://rugplay.com" +:+ pathname) = true).
  { eapply all_bytes_impl; [|exact Hpath]. intros c. by_bytes c. }
  assert (Hfront' : all_bytes (fun c => negb (Ascii.eqb "?" c))
                      ("https://rugplay.com" +:+ pathname) = true).
  { eapply all_bytes_impl; [|exact Hpath]. intros c. by_bytes c. }
  unfold search_params_of. rewrite new_URL_origin.
  set (front := "https://rugplay.com" +:+ pathname) in *.
  destruct (url_fragment (new_URL "https://rugplay.com" rest)) as [f|].
  - replace ("https://rugplay.com" +:+ pathname +:+ ("?" +:+ search) +:+ "#" +:+ f)
      with ((front +:+ String "?" search) +:+ String "#" f)
      by (unfold front; now rewrite !append_assoc).
    rewrite cut_at_app; [| |reflexivity].
    + rewrite cut_at_app by (assumption || reflexivity). apply parse_serialize.
    + rewrite all_bytes_app, Hfront. cbn [all_bytes]. now rewrite Hquery.
  - replace ("https://rugplay.com" +:+ pathname +:+ ("?" +:+ search) +:+ "")
      with (front +:+ String "?" search)
      by (unfold front; now rewrite !append_assoc, append_nil_r).
    rewrite cut_at_none.
    + rewrite cut_at_app by (assumption || reflexivity). apply parse_serialize.
    + rewrite all_bytes_app, Hfront. cbn [all_bytes]. now rewrite Hquery.
Qed.

(** A [..] before a valid segment takes the resource out of the path. *)
Lemma new_URL_parent (origin resource segment : string) :
  resource = "coin" \/ resource = "holders" ->
  valid_symbol segment = true ->
  new_URL origin ("/api/v1/" +:+ resource +:+ "/" +:+ "../" +:+ segment) =
  {| url_origin := origin; url_path := ["api"; "v1"; segment];
     url_query := None; url_fragment := None |}.
Proof.
  intros Hres Hvalid. pose proof (valid_symbol_bytes _ Hvalid) as Hbytes.
  unfold valid_symbol in Hvalid.
  apply andb_true_iff in Hvalid as [[_ Hsingle]%andb_true_iff Hdouble].
  apply negb_true_iff in Hsingle, Hdouble.
  assert (Hclean : all_bytes (fun c => segment_byte c || is_slash c)
                     ("/api/v1/" +:+ resource +:+ "/" +:+ "../" +:+ segment) = true).
  { rewrite !all_bytes_app.
    rewrite (all_bytes_impl segment_byte _ segment) by (try assumption; intros c ->; reflexivity).
    destruct Hres as [-> | ->]; reflexivity. }
  unfold new_URL.
  rewrite trim_id by (eapply all_bytes_impl; [|exact Hclean]; intros c; by_bytes c).
  rewrite filter_bytes_id by (eapply all_bytes_impl; [|exact Hclean]; intros c; by_bytes c).
  rewrite cut_at_none by (eapply all_bytes_impl; [|exact Hclean]; intros c; by_bytes c).
  rewrite cut_at_none by (eapply all_bytes_impl; [|exact Hclean]; intros c; by_bytes c).
  assert (Hseg : all_bytes (fun c => negb (is_slash c)) segment = true).
  { eapply all_bytes_impl; [|exact Hbytes]. intros c. by_bytes c. }
  assert (Henc : utf8_percent_encode path_set segment = segment).
  { apply utf8_percent_encode_id. eapply all_bytes_impl; [|exact Hbytes].
    intros c. by_bytes c. }
  destruct Hres as [-> | ->]; norm_append;
    cbn [split_on is_slash one_of existsb list_ascii_of_string Ascii.eqb Bool.eqb orb];
    rewrite split_on_none by assumption;
    cbn [path_state]; rewrite Henc, Hsingle, Hdouble; reflexivity.
Qed.

(** ** Decoding chunk by chunk *)

(** Decoding two Buffers one after the other is decoding them together,
    when the first does not stop inside a character. *)
Lemma decode_app (a b : string) (pending : option Utf8.Pending) :
  Utf8.end_state pending a = None ->
  Utf8.decode pending (a +:+ b) = Utf8.decode pending a +:+ Utf8.decode None b.
Proof.
  revert pending. induction a as [|c a IH]; intros pending Hend.
  - cbn in Hend. subst pending. reflexivity.
  - step_append. cbn [Utf8.decode Utf8.end_state] in *.
    destruct pending as [p|].
    + destruct (between (Utf8.lower p) (Utf8.upper p) c).
      * destruct (Utf8.more p); rewrite IH by assumption;
          rewrite ?append_assoc, ?append_cons; reflexivity.
      * destruct (Utf8.start c); rewrite IH by assumption;
          rewrite ?append_assoc, ?append_cons; reflexivity.
    + destruct (Utf8.start c); rewrite IH by assumption;
        rewrite ?append_assoc, ?append_cons; reflexivity.
Qed.

Lemma Buffer_toString_app (a b : string) :
  Utf8.ends_at_boundary a = true ->
  Utf8.Buffer_toString (a +:+ b) = Utf8.Buffer_toString a +:+ Utf8.Buffer_toString b.
Proof.
  unfold Utf8.ends_at_boundary, Utf8.Buffer_toString. intros Hend.
  apply decode_app. now destruct (Utf8.end_state None a).
Qed.

(** ** Further properties of the handlers *)

Lemma graph_listen_pending `{!Platform} (pythonOutput : string) (events : list ChildEvent) :
  forallb (fun e => negb (is_close e)) events = true ->
  graph_listen pythonOutput events = None.
Proof.
  revert pythonOutput. induction events as [|e events IH]; intros pythonOutput; [reflexivity|].
  cbn [forallb]. intros [He Hevents]%andb_true_iff.
  destruct e; [| |discriminate]; cbn [graph_listen]; now apply IH.
Qed.

Section MoreHandlerProperties.
Context `{!Platform}.
Implicit Types (cfg : Config) (req : Request) (route : Route).

(** The parameters that the upstream reads in the target of each route. *)
Lemma market_data_search_params cfg req :
  exists target,
    issued (get_api_market_data cfg req) = Some ("GET", target)
    /\ search_params_of target = URLSearchParams (market_params req).
Proof.
  eexists. split; [reflexivity|].
  unfold market_params. cbn [URLSearchParams List.map].
  apply search_params_of_set_search.
Qed.

Lemma coin_info_search_params cfg req :
  exists target,
    issued (get_api_coin_info cfg req) = Some ("GET", target)
    /\ search_params_of target = URLSearchParams (coin_info_params req).
Proof.
  eexists. split; [reflexivity|].
  unfold coin_info_params. cbn [URLSearchParams List.map].
  apply search_params_of_set_search.
Qed.

Lemma coin_holders_search_params cfg req :
  exists target,
    issued (get_api_coin_holders cfg req) = Some ("GET", target)
    /\ search_params_of target = URLSearchParams (coin_holders_params req).
Proof.
  eexists. split; [reflexivity|].
  unfold coin_holders_params. cbn [URLSearchParams List.map].
  apply search_params_of_set_search.
Qed.

(** X1.  On every proxy route, an upstream response with a status in
    200..299 whose body parses as the JSON value [data] is answered with
    status 200 and [data] itself, whatever the upstream status was. *)
Theorem proxy_success_forwards_json cfg route req (response : Response)
    (body : string) (data : json) :
  ok response = true ->
  text response = Some body ->
  JSON_parse body = Some data ->
  settle (proxy cfg route req) (Fulfilled response) = Respond 200 data.
Proof.
  intros Hok Htext Hdata. destruct (proxy_fetches cfg route req) as [url ->].
  cbn [settle handleApiRequest]. rewrite Hok, Htext. cbn. now rewrite Hdata.
Qed.

(** X2.  On every proxy route, a rejected [fetch], an upstream body that
    cannot be read, and a 2xx body that is not JSON are all answered with
    status 500 and [{error: "Internal server error."}], with nothing of the
    upstream response in it. *)
Theorem proxy_failure_is_generic_500 cfg route req (settled : Settled) :
  settled = Rejected
  \/ (exists response, settled = Fulfilled response /\ text response = None)
  \/ (exists response body, settled = Fulfilled response /\ ok response = true
        /\ text response = Some body /\ JSON_parse body = None) ->
  settle (proxy cfg route req) settled =
  Respond 500 (JObject [("error", JString "Internal server error.")]).
Proof.
  destruct (proxy_fetches cfg route req) as [url ->]. cbn [settle handleApiRequest].
  intros [-> | [(response & -> & Htext) | (response & body & -> & Hok & Htext & Hparse)]].
  - reflexivity.
  - rewrite Htext. now destruct (negb (ok response)).
  - rewrite Hok, Htext. cbn. now rewrite Hparse.
Qed.

(** X3.  Every proxy route makes one outbound GET, and once it has settled
    the handler answers and never fetches again; the status of the answer
    is 200, 500, or the status of a non-2xx upstream response. *)
Theorem proxy_one_call_then_reply cfg route req :
  (exists url, issued (proxy cfg route req) = Some ("GET", url))
  /\ forall settled, exists code payload,
       settle (proxy cfg route req) settled = Respond code payload
       /\ (code = 200 \/ code = 500
           \/ exists response, settled = Fulfilled response
                /\ ok response = false /\ code = status response).
Proof.
  destruct (proxy_fetches cfg route req) as [url ->]. split; [now exists url|].
  intros [|response]; cbn [settle handleApiRequest].
  - unfold internal_server_error. eauto 6.
  - destruct (ok response) eqn:Hok; cbn [negb].
    + destruct (text response ≫= JSON_parse); unfold internal_server_error; eauto 6.
    + destruct (text response); unfold internal_server_error; eauto 10.
Qed.

(** X4.  In local mode the headers are Authorization and Content-Type
    only, and they are the same for every request: nothing the caller
    sends reaches them. *)
Theorem local_headers_fixed cfg req :
  runMode cfg = "local" ->
  getAuthHeaders cfg req =
  <["Content-Type" := "application/json"]>
    {["Authorization" := "Bearer " +:+ ToString (API_KEY cfg)]}.
Proof.
  intros Hlocal. unfold getAuthHeaders.
  repeat case_decide; try contradiction. now rewrite insert_empty.
Qed.

(** X5.  Outside local mode the key of the environment is never used: the
    headers are the same whether [RUGPLAY_API_KEY] is set or not. *)
Theorem deployed_ignores_env_key (env : gmap string string) (key : string) req :
  runMode (startup env) <> "local" ->
  getAuthHeaders (startup (<["RUGPLAY_API_KEY" := key]> env)) req =
  getAuthHeaders (startup env) req.
Proof.
  intros Hdeployed.
  assert (Hmode : runMode (startup (<["RUGPLAY_API_KEY" := key]> env)) = runMode (startup env)).
  { unfold startup. cbn [runMode]. now rewrite lookup_insert_ne. }
  unfold getAuthHeaders. rewrite Hmode.
  repeat case_decide; try contradiction. reflexivity.
Qed.

(** X6.  The process runs in local mode exactly when [RUN_MODE] is unset,
    empty or [local]; any other value, whatever its letter case, selects
    the other mode and is kept as it is. *)
Theorem startup_local_iff (env : gmap string string) :
  (runMode (startup env) = "local" <->
   env !! "RUN_MODE" = None \/ env !! "RUN_MODE" = Some ""
   \/ env !! "RUN_MODE" = Some "local")
  /\ (forall mode, env !! "RUN_MODE" = Some mode -> mode <> "" ->
      runMode (startup env) = mode).
Proof.
  unfold startup. cbn [runMode].
  destruct (env !! "RUN_MODE") as [mode|].
  2: { split. { tauto. } discriminate. }
  destruct (String.eqb_spec mode "") as [->|Hne]; split.
  - tauto.
  - intros ? [= <-]. congruence.
  - split; [intros ->; tauto|]. intros [|[[= ->]|[= ->]]]; congruence.
  - now intros ? [= <-].
Qed.

(** X7.  On the market-data route the target carries exactly seven
    parameters, in this order, for every request: whatever else the caller
    sends, the [apikey] among it, is not forwarded in the URL. *)
Theorem market_data_forwards_seven_params cfg req :
  exists target,
    issued (get_api_market_data cfg req) = Some ("GET", target)
    /\ search_params_of target = URLSearchParams (market_params req)
    /\ List.map fst (search_params_of target) =
       ["search"; "sortBy"; "sortOrder"; "priceFilter"; "changeFilter"; "page"; "limit"].
Proof.
  destruct (market_data_search_params cfg req) as (target & Hissued & Hparams).
  exists target. rewrite Hparams. split; [assumption|split; reflexivity].
Qed.

(** X8.  On the coin routes the symbol cannot add or change a parameter of
    the target: whatever the symbol is, the target carries [timeframe]
    alone on coin-info and [limit] alone on coin-holders. *)
Theorem coin_routes_query_fixed cfg req :
  (exists target,
     issued (get_api_coin_info cfg req) = Some ("GET", target)
     /\ search_params_of target =
        [("timeframe", ToString (or (param req "timeframe") (Str "1m")))])
  /\ (exists target,
        issued (get_api_coin_holders cfg req) = Some ("GET", target)
        /\ search_params_of target =
           [("limit", ToString (or (param req "limit") (Num (Int 50))))]).
Proof.
  split.
  - exact (coin_info_search_params cfg req).
  - exact (coin_holders_search_params cfg req).
Qed.

(** X9.  The symbol is not confined to its path segment: a symbol [../x],
    with [x] a valid segment, takes the resource out of the path, and the
    call goes to [/api/v1/x]. *)
Theorem coin_symbol_parent_segment cfg req (x : string) :
  query req !! "symbol" = Some (Str ("../" +:+ x)) ->
  valid_symbol x = true ->
  issued (get_api_coin_info cfg req) =
    Some ("GET", "https://rugplay.com/api/v1/" +:+ x +:+ "?timeframe="
                   +:+ URLEncoded.encode (ToString (or (param req "timeframe") (Str "1m"))))
  /\ issued (get_api_coin_holders cfg req) =
    Some ("GET", "https://rugplay.com/api/v1/" +:+ x +:+ "?limit="
                   +:+ URLEncoded.encode (ToString (or (param req "limit") (Num (Int 50))))).
Proof.
  intros Hsymbol%param_present Hvalid. split.
  - unfold get_api_coin_info. rewrite Hsymbol. cbn [ToString issued handleApiRequest].
    change ("/api/v1/coin/" +:+ "../" +:+ x)
      with ("/api/v1/" +:+ "coin" +:+ "/" +:+ "../" +:+ x).
    rewrite new_URL_parent by auto.
    unfold coin_info_params. cbn [URLSearchParams List.map].
    rewrite set_search_serialize, serialize_one. unfold href.
    cbn [url_origin url_path url_query url_fragment List.map String.concat].
    norm_append. reflexivity.
  - unfold get_api_coin_holders. rewrite Hsymbol. cbn [ToString issued handleApiRequest].
    change ("/api/v1/holders/" +:+ "../" +:+ x)
      with ("/api/v1/" +:+ "holders" +:+ "/" +:+ "../" +:+ x).
    rewrite new_URL_parent by auto.
    unfold coin_holders_params. cbn [URLSearchParams List.map].
    rewrite set_search_serialize, serialize_one. unfold href.
    cbn [url_origin url_path url_query url_fragment List.map String.concat].
    norm_append. reflexivity.
Qed.


(** X10.  On the market-data route, a [page] or [limit] that starts with
    the decimal numeral of a nonzero integer [z] of at most 2^53 in
    magnitude, and goes on with nothing or with a byte that is not a digit,
    is forwarded as that numeral: what follows it is dropped, and a negative
    value is forwarded like a positive one. *)
Theorem market_data_integer_forwarded cfg req (name : string) (z : Z) (junk : string) :
  In name ["page"; "limit"] ->
  z <> 0 ->
  Z.abs z <= 2 ^ 53 ->
  match junk with String c _ => negb (is_digit c) | EmptyString => true end = true ->
  query req !! name = Some (Str (NilZero.string_of_int (Z.to_int z) +:+ junk)) ->
  exists target,
    issued (get_api_market_data cfg req) = Some ("GET", target)
    /\ In (name, NilZero.string_of_int (Z.to_int z)) (search_params_of target).
Proof.
  intros Hname Hz Hsafe Hjunk Hquery%param_present.
  destruct (market_data_search_params cfg req) as (target & Hissued & Hparams).
  exists target. split; [assumption|]. rewrite Hparams.
  assert (Hforward : forall d,
            ToString (or (Num (parseInt (param req name))) (Num (Int d)))
            = NilZero.string_of_int (Z.to_int z)).
  { intros d. unfold parseInt. rewrite Hquery. cbn [ToString].
    rewrite parseInt_string_decimal by assumption.
    unfold or. cbn [ToBoolean]. destruct (Z.eqb_spec z 0) as [|_]; [contradiction|].
    cbn [negb ToString Number_toString].
    destruct (Z.leb_spec (Z.abs z) (2 ^ 53)); [reflexivity|lia]. }
  unfold market_params. cbn [URLSearchParams List.map].
  cbn [In] in Hname. destruct Hname as [<-|[<-|[]]]; rewrite Hforward; cbn [In]; auto 10.
Qed.

(** X11.  On the coin-holders route a [limit] that is a non-empty string
    is forwarded as it is, with no integer parse; an absent or empty one is
    forwarded as 50. *)
Theorem coin_holders_limit_param cfg req :
  (query req !! "limit" = None \/ query req !! "limit" = Some (Str "") ->
   exists target,
     issued (get_api_coin_holders cfg req) = Some ("GET", target)
     /\ search_params_of target = [("limit", "50")])
  /\ (forall s, s <> "" -> query req !! "limit" = Some (Str s) ->
      exists target,
        issued (get_api_coin_holders cfg req) = Some ("GET", target)
        /\ search_params_of target = [("limit", s)]).
Proof.
  destruct (coin_holders_search_params cfg req) as (target & Hissued & Hparams).
  unfold coin_holders_params in Hparams. cbn [URLSearchParams List.map] in Hparams.
  split.
  - intros Hlimit. exists target. split; [assumption|]. rewrite Hparams.
    destruct Hlimit as [Hlimit%param_absent | Hlimit%param_present];
      rewrite Hlimit; reflexivity.
  - intros s Hs Hlimit%param_present. exists target. split; [assumption|].
    rewrite Hparams, Hlimit. unfold or. cbn [ToBoolean].
    destruct (String.eqb_spec s "") as [|_]; [contradiction|]. reflexivity.
Qed.

(** X12.  On the coin-info route a [timeframe] that is a non-empty string
    is forwarded as it is; an absent or empty one is forwarded as [1m]. *)
Theorem coin_info_timeframe_param cfg req :
  (query req !! "timeframe" = None \/ query req !! "timeframe" = Some (Str "") ->
   exists target,
     issued (get_api_coin_info cfg req) = Some ("GET", target)
     /\ search_params_of target = [("timeframe", "1m")])
  /\ (forall s, s <> "" -> query req !! "timeframe" = Some (Str s) ->
      exists target,
        issued (get_api_coin_info cfg req) = Some ("GET", target)
        /\ search_params_of target = [("timeframe", s)]).
Proof.
  destruct (coin_info_search_params cfg req) as (target & Hissued & Hparams).
  unfold coin_info_params in Hparams. cbn [URLSearchParams List.map] in Hparams.
  split.
  - intros Htf. exists target. split; [assumption|]. rewrite Hparams.
    destruct Htf as [Htf%param_absent | Htf%param_present];
      rewrite Htf; reflexivity.
  - intros s Hs Htf%param_present. exists target. split; [assumption|].
    rewrite Hparams, Htf. unfold or. cbn [ToBoolean].
    destruct (String.eqb_spec s "") as [|_]; [contradiction|]. reflexivity.
Qed.

(** X13.  [/api/graph] sends nothing until the child closes: whatever the
    child writes, a run of events without [close] leaves the request
    unanswered. *)
Theorem graph_no_reply_before_close (events : list ChildEvent) :
  forallb (fun e => negb (is_close e)) events = true ->
  post_api_graph events = None.
Proof. apply graph_listen_pending. Qed.

(** X14.  The answer of [/api/graph] depends on the child only through
    the text accumulated from its standard output, each chunk decoded by
    itself, and its exit code: what goes to the standard error and any
    event after the first [close] make no difference. *)
Theorem graph_reply_depends_on_stdout_and_code
    (before1 before2 after1 after2 : list ChildEvent) (code : option Z) :
  forallb (fun e => negb (is_close e)) before1 = true ->
  forallb (fun e => negb (is_close e)) before2 = true ->
  stdout_of before1 = stdout_of before2 ->
  post_api_graph (before1 ++ close code :: after1)%list =
  post_api_graph (before2 ++ close code :: after2)%list.
Proof.
  intros H1 H2 Hout. unfold post_api_graph.
  rewrite !graph_listen_close by assumption. now rewrite Hout.
Qed.

(** X15.  Whatever the child does, an answer of [/api/graph] is either
    status 200 with [success: true] and the parsed output, or status 500
    with [success: false] and one of two fixed messages. *)
Theorem graph_reply_shape (events : list ChildEvent) (reply : Handling) :
  post_api_graph events = Some reply ->
  (exists graphData,
     reply = Respond 200 (JObject [("success", JBool true); ("graphData", graphData)]))
  \/ reply = Respond 500 (JObject [("success", JBool false);
                                   ("error", JString "Failed to process graph data")])
  \/ reply = Respond 500 (JObject [("success", JBool false);
                                   ("error", JString "Graph generation failed")]).
Proof.
  unfold post_api_graph.
  match goal with
  | |- _ -> ?shape =>
      enough (Hshape : forall pythonOutput,
                graph_listen pythonOutput events = Some reply -> shape)
        by apply Hshape
  end.
  induction events as [|e events IH]; intros pythonOutput; [discriminate|].
  destruct e as [data|data|code]; cbn [graph_listen]; [apply IH..|].
  intros [= <-]. unfold on_close. case_decide; [|tauto].
  destruct (JSON_parse pythonOutput); eauto.
Qed.

(** X16.  The query-string format round-trips: whatever names and values
    [URLSearchParams] is given, bytes that the format reserves included,
    parsing its [toString] gives them back. *)
Theorem URLSearchParams_round_trip (params : list (string * value)) :
  URLEncoded.parse (URLEncoded.serialize (URLSearchParams params)) =
  URLSearchParams params.
Proof. apply parse_serialize. Qed.

(** X17.  Outside local mode a request without [apikey] is not refused:
    every proxy route still makes its upstream call, with the
    Authorization header [Bearer undefined]. *)
Theorem deployed_without_apikey cfg route req :
  runMode cfg <> "local" ->
  query req !! "apikey" = None ->
  getAuthHeaders cfg req !! "Authorization" = Some "Bearer undefined"
  /\ exists url next,
       proxy cfg route req = Fetch url "GET" (getAuthHeaders cfg req) next.
Proof.
  intros Hdeployed Hkey%param_absent. split.
  - unfold getAuthHeaders. repeat case_decide; try contradiction.
    cbv zeta. rewrite !lookup_insert_ne by done. rewrite lookup_insert_eq.
    now rewrite Hkey.
  - destruct (proxy_fetches cfg route req) as [url ->].
    unfold handleApiRequest. eauto.
Qed.

(** X18.  Cutting the standard output of the child at a character boundary
    makes no difference to [/api/graph]: two chunks, the first of which does
    not stop inside a UTF-8 character, are answered as the one chunk that
    joins them. *)
Theorem graph_chunks_at_character_boundary
    (before after : list ChildEvent) (a b : string) :
  Utf8.ends_at_boundary a = true ->
  post_api_graph (before ++ stdout_data a :: stdout_data b :: after)%list =
  post_api_graph (before ++ stdout_data (a +:+ b) :: after)%list.
Proof.
  intros Hboundary. unfold post_api_graph.
  enough (Hany : forall pythonOutput,
            graph_listen pythonOutput (before ++ stdout_data a :: stdout_data b :: after)%list
            = graph_listen pythonOutput (before ++ stdout_data (a +:+ b) :: after)%list)
    by apply Hany.
  induction before as [|e before IH]; intros pythonOutput.
  - cbn [app graph_listen]. now rewrite Buffer_toString_app, append_assoc.
  - destruct e; cbn [app graph_listen]; [apply IH | apply IH | reflexivity].
Qed.


End MoreHandlerProperties.

(** ** The handlers on concrete requests *)

Import Sample.

Lemma market_data_absent_param_forwarded_witness :
  In "search" ["search"; "sortBy"; "sortOrder"; "priceFilter"; "changeFilter"]
  /\ query no_query !! "search" = None
  /\ issued (get_api_market_data local no_query) =
       Some ("GET", "https://rugplay.com/api/v1/market?search=undefined&sortBy=undefined&sortOrder=undefined&priceFilter=undefined&changeFilter=undefined&page=1&limit=12")
  /\ In ("search", "undefined")
       (search_params_of "https://rugplay.com/api/v1/market?search=undefined&sortBy=undefined&sortOrder=undefined&priceFilter=undefined&changeFilter=undefined&page=1&limit=12").
Proof.
  assert (Hname : In "search" ["search"; "sortBy"; "sortOrder"; "priceFilter"; "changeFilter"])
    by (left; reflexivity).
  assert (Habsent : query no_query !! "search" = None) by reflexivity.
  split; [exact Hname|]. split; [exact Habsent|].
  exact (market_data_absent_param_forwarded local no_query "search" Hname Habsent).
Defined.

(** C1, as stated, fails: with no parameter at all in the inbound query
    string, the five filter keys are in the upstream query string. *)
Lemma market_data_absent_param_not_omitted :
  query no_query !! "search" = None
  /\ issued (get_api_market_data local no_query) =
       Some ("GET", "https://rugplay.com/api/v1/market?search=undefined&sortBy=undefined&sortOrder=undefined&priceFilter=undefined&changeFilter=undefined&page=1&limit=12")
  /\ search_params_of "https://rugplay.com/api/v1/market?search=undefined&sortBy=undefined&sortOrder=undefined&priceFilter=undefined&changeFilter=undefined&page=1&limit=12"
     = [("search", "undefined"); ("sortBy", "undefined"); ("sortOrder", "undefined");
        ("priceFilter", "undefined"); ("changeFilter", "undefined");
        ("page", "1"); ("limit", "12")].
Proof. repeat split; vm_compute; reflexivity. Qed.

Lemma authorization_by_mode_witness :
  (runMode local_with_key = "local" /\
   getAuthHeaders local_with_key (request [("apikey", Str "from-caller")]) !! "Authorization"
   = Some "Bearer s3cret")
  /\ (runMode deployed <> "local" /\
      getAuthHeaders deployed (request [("apikey", Str "from-caller")]) !! "Authorization"
      = Some "Bearer from-caller").
Proof.
  assert (Hlocal : runMode local_with_key = "local") by reflexivity.
  assert (Hdeployed : runMode deployed <> "local") by (vm_compute; discriminate).
  split; (split; [assumption|]).
  - exact (proj1 (proj2 (authorization_by_mode local_with_key coin_info
                           (request [("apikey", Str "from-caller")]))) Hlocal).
  - exact (proj2 (proj2 (authorization_by_mode deployed coin_info
                           (request [("apikey", Str "from-caller")]))) Hdeployed).
Defined.

Lemma upstream_error_is_mirrored_witness :
  ok {| status := 404; text := Some "not found" |} = false
  /\ settle (proxy local top_coins no_query)
       (Fulfilled {| status := 404; text := Some "not found" |}) =
     Respond 404
       (JObject [("error", JString "Failed to fetch data from external API.");
                 ("details", JString "not found")]).
Proof.
  split; [reflexivity|].
  exact (upstream_error_is_mirrored local top_coins no_query
           {| status := 404; text := Some "not found" |} "not found" eq_refl eq_refl).
Defined.

Lemma graph_close_outcomes_witness :
  post_api_graph [stdout_data ("{" +:+ quote "a"); stderr_data "warning";
                  stdout_data ":1}"; close (Some 0)]
  = Some (Respond 200 (JObject [("success", JBool true);
                                ("graphData", JObject [("a", JNumber "1")])]))
  /\ post_api_graph [stdout_data a_is_1; close (Some 1)]
     = Some (Respond 500 (JObject [("success", JBool false);
                                   ("error", JString "Graph generation failed")]))
  /\ post_api_graph [stdout_data "not-json"; close (Some 0)]
     = Some (Respond 500 (JObject [("success", JBool false);
                                   ("error", JString "Failed to process graph data")])).
Proof.
  split; [|split].
  - exact (proj1 (graph_close_outcomes
                    [stdout_data ("{" +:+ quote "a"); stderr_data "warning";
                     stdout_data ":1}"] []
                    (Some 0) eq_refl)
             eq_refl (JObject [("a", JNumber "1")]) eq_refl).
  - refine (proj1 (proj2 (graph_close_outcomes [stdout_data a_is_1] []
                            (Some 1) eq_refl)) _ Sample.platform).
    discriminate.
  - exact (proj2 (proj2 (graph_close_outcomes [stdout_data "not-json"] []
                           (Some 0) eq_refl))
             eq_refl eq_refl).
Defined.

Lemma coin_routes_target_url_witness :
  valid_symbol "BTC" = true
  /\ issued (get_api_coin_info local (request [("symbol", Str "BTC"); ("timeframe", Str "1 d")]))
     = Some ("GET", "https://rugplay.com/api/v1/coin/BTC?timeframe=1+d")
  /\ issued (get_api_coin_holders local (request [("symbol", Str "BTC"); ("timeframe", Str "1 d")]))
     = Some ("GET", "https://rugplay.com/api/v1/holders/BTC?limit=50").
Proof.
  split; [reflexivity|].
  pose proof (coin_routes_target_url local
                (request [("symbol", Str "BTC"); ("timeframe", Str "1 d")]) "BTC"
                eq_refl eq_refl) as (Hinfo & Hholders & _).
  split; [exact Hinfo | exact Hholders].
Defined.

Lemma deployed_header_names_witness :
  runMode deployed <> "local"
  /\ dom (getAuthHeaders deployed no_query) =
     ({[ "Authorization"; "Content-Type"; "User-Agent"; "Accept"; "Accept-Language";
         "Accept-Encoding"; "Connection"; "Pragma"; "Cache-Control" ]} : gset string).
Proof.
  assert (Hdeployed : runMode deployed <> "local") by (vm_compute; discriminate).
  split; [exact Hdeployed|].
  exact (deployed_header_names deployed no_query Hdeployed).
Defined.

(** C6, as stated, fails: outside local mode the headers hold a Pragma
    entry, which is none of the eight headers that C6 lists. *)
Lemma deployed_headers_include_pragma :
  runMode deployed <> "local"
  /\ getAuthHeaders deployed no_query !! "Pragma" = Some "no-cache"
  /\ dom (getAuthHeaders deployed no_query) <>
     ({[ "Authorization"; "Content-Type"; "User-Agent"; "Accept"; "Accept-Language";
         "Accept-Encoding"; "Connection"; "Cache-Control" ]} : gset string).
Proof.
  split; [vm_compute; discriminate|]. split; [reflexivity|].
  intros Heq.
  assert (Hin : "Pragma" ∈ dom (getAuthHeaders deployed no_query)).
  { apply elem_of_dom. exists "no-cache". reflexivity. }
  rewrite Heq in Hin. set_solver.
Qed.

Lemma market_data_page_limit_defaults_witness :
  issued (get_api_market_data local no_query) =
    Some ("GET", "https://rugplay.com/api/v1/market?search=undefined&sortBy=undefined&sortOrder=undefined&priceFilter=undefined&changeFilter=undefined&page=1&limit=12")
  /\ issued (get_api_market_data local (request [("page", Str "3"); ("limit", Str "5")])) =
    Some ("GET", "https://rugplay.com/api/v1/market?search=undefined&sortBy=undefined&sortOrder=undefined&priceFilter=undefined&changeFilter=undefined&page=3&limit=5").
Proof.
  split.
  - exact (proj1 (market_data_page_limit_defaults local no_query) eq_refl eq_refl).
  - exact (proj2 (market_data_page_limit_defaults local
                    (request [("page", Str "3"); ("limit", Str "5")])) eq_refl eq_refl).
Defined.

Lemma local_mode_without_secret_witness :
  runMode (startup ∅) = "local"
  /\ (∅ : gmap string string) !! "RUGPLAY_API_KEY" = None
  /\ getAuthHeaders (startup ∅) (request [("apikey", Str "from-caller")]) !! "Authorization"
     = Some "Bearer undefined".
Proof.
  split; [reflexivity|]. split; [reflexivity|].
  exact (proj1 (local_mode_without_secret ∅ market_data
                  (request [("apikey", Str "from-caller")]) eq_refl eq_refl)).
Defined.

Lemma coin_routes_without_symbol_witness :
  query no_query !! "symbol" = None
  /\ issued (get_api_coin_info local no_query) =
       Some ("GET", "https://rugplay.com/api/v1/coin/undefined?timeframe=1m")
  /\ issued (get_api_coin_holders local no_query) =
       Some ("GET", "https://rugplay.com/api/v1/holders/undefined?limit=50").
Proof.
  split; [reflexivity|].
  exact (coin_routes_without_symbol local no_query eq_refl).
Defined.

(** The parse of [page] and [limit] on a few inbound values. *)
Example market_data_page_zero :
  issued (get_api_market_data local (request [("page", Str "0"); ("limit", Str "abc")])) =
  Some ("GET", "https://rugplay.com/api/v1/market?search=undefined&sortBy=undefined&sortOrder=undefined&priceFilter=undefined&changeFilter=undefined&page=1&limit=12").
Proof. reflexivity. Qed.

Example market_data_page_prefix :
  issued (get_api_market_data local (request [("page", Str " 7px"); ("limit", Str "-0x10")])) =
  Some ("GET", "https://rugplay.com/api/v1/market?search=undefined&sortBy=undefined&sortOrder=undefined&priceFilter=undefined&changeFilter=undefined&page=7&limit=-16").
Proof. reflexivity. Qed.

(** A symbol that is not valid is not kept as the last path segment. *)
Example coin_info_dot_segment :
  issued (get_api_coin_info local (request [("symbol", Str "../top")])) =
  Some ("GET", "https://rugplay.com/api/v1/top?timeframe=1m").
Proof. reflexivity. Qed.

Example valid_symbol_undefined : valid_symbol "undefined" = true.
Proof. reflexivity. Qed.

Lemma proxy_success_forwards_json_witness :
  ok {| status := 201; text := Some a_is_1 |} = true
  /\ settle (proxy deployed market_data no_query)
       (Fulfilled {| status := 201; text := Some a_is_1 |})
     = Respond 200 (JObject [("a", JNumber "1")]).
Proof.
  split; [reflexivity|].
  exact (proxy_success_forwards_json deployed market_data no_query
           {| status := 201; text := Some a_is_1 |} a_is_1
           (JObject [("a", JNumber "1")]) eq_refl eq_refl eq_refl).
Defined.

Lemma proxy_failure_is_generic_500_witness :
  settle (proxy local coin_info no_query)
    (Fulfilled {| status := 204; text := Some "" |})
  = Respond 500 (JObject [("error", JString "Internal server error.")]).
Proof.
  apply (proxy_failure_is_generic_500 local coin_info no_query).
  right. right. exists {| status := 204; text := Some "" |}, "".
  repeat split; reflexivity.
Defined.

Lemma local_headers_fixed_witness :
  runMode local_with_key = "local"
  /\ getAuthHeaders local_with_key (request [("apikey", Str "from-caller")])
     = <["Content-Type" := "application/json"]> {["Authorization" := "Bearer s3cret"]}.
Proof.
  split; [reflexivity|].
  exact (local_headers_fixed local_with_key (request [("apikey", Str "from-caller")]) eq_refl).
Defined.

Lemma deployed_ignores_env_key_witness :
  runMode deployed <> "local"
  /\ getAuthHeaders
       (startup (<["RUGPLAY_API_KEY" := "s3cret"]> {[ "RUN_MODE" := "deployed" ]})) no_query
     = getAuthHeaders deployed no_query.
Proof.
  assert (Hdeployed : runMode deployed <> "local") by (vm_compute; discriminate).
  split; [exact Hdeployed|].
  exact (deployed_ignores_env_key {[ "RUN_MODE" := "deployed" ]} "s3cret" no_query Hdeployed).
Defined.

Lemma startup_local_iff_witness :
  runMode (startup {[ "RUN_MODE" := "" ]}) = "local"
  /\ runMode (startup {[ "RUN_MODE" := "Local" ]}) = "Local".
Proof.
  split.
  - apply (proj1 (startup_local_iff {[ "RUN_MODE" := "" ]})). right. left. reflexivity.
  - apply (proj2 (startup_local_iff {[ "RUN_MODE" := "Local" ]}) "Local");
      [reflexivity | discriminate].
Defined.

Lemma coin_symbol_parent_segment_witness :
  valid_symbol "top" = true
  /\ issued (get_api_coin_info local (request [("symbol", Str "../top")]))
     = Some ("GET", "https://rugplay.com/api/v1/top?timeframe=1m").
Proof.
  split; [reflexivity|].
  exact (proj1 (coin_symbol_parent_segment local (request [("symbol", Str "../top")]) "top"
                  eq_refl eq_refl)).
Defined.

Lemma market_data_integer_forwarded_witness :
  exists target,
    issued (get_api_market_data local (request [("page", Str "-5.9"); ("limit", Str "30px")]))
    = Some ("GET", target)
    /\ In ("page", "-5") (search_params_of target).
Proof.
  apply (market_data_integer_forwarded local
           (request [("page", Str "-5.9"); ("limit", Str "30px")]) "page" (-5) ".9").
  - left. reflexivity.
  - discriminate.
  - vm_compute. discriminate.
  - reflexivity.
  - reflexivity.
Defined.

Lemma coin_holders_limit_param_witness :
  (exists target,
     issued (get_api_coin_holders local (request [("limit", Str "")])) = Some ("GET", target)
     /\ search_params_of target = [("limit", "50")])
  /\ (exists target,
        issued (get_api_coin_holders local (request [("limit", Str "a&b")]))
        = Some ("GET", target)
        /\ search_params_of target = [("limit", "a&b")]).
Proof.
  split.
  - apply (proj1 (coin_holders_limit_param local (request [("limit", Str "")]))).
    right. reflexivity.
  - apply (proj2 (coin_holders_limit_param local (request [("limit", Str "a&b")])) "a&b");
      [discriminate | reflexivity].
Defined.

Lemma coin_info_timeframe_param_witness :
  (exists target,
     issued (get_api_coin_info local no_query) = Some ("GET", target)
     /\ search_params_of target = [("timeframe", "1m")])
  /\ (exists target,
        issued (get_api_coin_info local (request [("timeframe", Str "1 d")]))
        = Some ("GET", target)
        /\ search_params_of target = [("timeframe", "1 d")]).
Proof.
  split.
  - apply (proj1 (coin_info_timeframe_param local no_query)). left. reflexivity.
  - apply (proj2 (coin_info_timeframe_param local (request [("timeframe", Str "1 d")])) "1 d");
      [discriminate | reflexivity].
Defined.

Lemma graph_no_reply_before_close_witness :
  post_api_graph [stdout_data a_is_1; stderr_data "done"] = None.
Proof.
  exact (graph_no_reply_before_close [stdout_data a_is_1; stderr_data "done"] eq_refl).
Defined.

Lemma graph_reply_depends_on_stdout_and_code_witness :
  post_api_graph [stdout_data "{"; stderr_data "warning"; stdout_data (quote "a" +:+ ":1}");
                  close (Some 0); stdout_data "late"]
  = post_api_graph [stdout_data a_is_1; close (Some 0)].
Proof.
  exact (graph_reply_depends_on_stdout_and_code
           [stdout_data "{"; stderr_data "warning"; stdout_data (quote "a" +:+ ":1}")]
           [stdout_data a_is_1] [stdout_data "late"] [] (Some 0)
           eq_refl eq_refl eq_refl).
Defined.

Lemma graph_reply_shape_witness :
  (exists graphData,
     Respond 500 (JObject [("success", JBool false);
                           ("error", JString "Graph generation failed")])
     = Respond 200 (JObject [("success", JBool true); ("graphData", graphData)]))
  \/ Respond 500 (JObject [("success", JBool false);
                           ("error", JString "Graph generation failed")])
     = Respond 500 (JObject [("success", JBool false);
                             ("error", JString "Failed to process graph data")])
  \/ Respond 500 (JObject [("success", JBool false);
                           ("error", JString "Graph generation failed")])
     = Respond 500 (JObject [("success", JBool false);
                             ("error", JString "Graph generation failed")]).
Proof.
  exact (graph_reply_shape [stdout_data a_is_1; close None] _ eq_refl).
Defined.

Lemma deployed_without_apikey_witness :
  runMode deployed <> "local"
  /\ query no_query !! "apikey" = None
  /\ getAuthHeaders deployed no_query !! "Authorization" = Some "Bearer undefined".
Proof.
  assert (Hdeployed : runMode deployed <> "local") by (vm_compute; discriminate).
  split; [exact Hdeployed|]. split; [reflexivity|].
  exact (proj1 (deployed_without_apikey deployed top_coins no_query Hdeployed eq_refl)).
Defined.


Lemma graph_chunks_at_character_boundary_witness :
  Utf8.ends_at_boundary ("{" +:+ quote "a") = true
  /\ post_api_graph [stdout_data ("{" +:+ quote "a"); stdout_data ":1}"; close (Some 0)]
     = post_api_graph [stdout_data a_is_1; close (Some 0)].
Proof.
  split; [reflexivity|].
  exact (graph_chunks_at_character_boundary [] [close (Some 0)]
           ("{" +:+ quote "a") ":1}" eq_refl).
Defined.

(** A chunk that stops inside a character is decoded by itself: the two
    bytes of an e with acute accent, cut apart, are accumulated as two
    replacement characters. *)
Example graph_chunk_cut_inside_character :
  stdout_of [stdout_data (Bytes.bytes [34; 195]%N); stdout_data (Bytes.bytes [169; 34]%N)]
  = Bytes.bytes [34; 239; 191; 189; 239; 191; 189; 34]%N
  /\ stdout_of [stdout_data (Bytes.bytes [34; 195; 169; 34]%N)]
     = Bytes.bytes [34; 195; 169; 34]%N
  /\ post_api_graph [stdout_data (Bytes.bytes [34; 195]%N);
                     stdout_data (Bytes.bytes [169; 34]%N); close (Some 0)]
     = Some (Respond 200
               (JObject [("success", JBool true);
                         ("graphData", JString (Bytes.bytes [239; 191; 189; 239; 191; 189]%N))])).
Proof. repeat split; reflexivity. Qed.
